(** * Sort coordination service of Angular-Slickgrid

    A shallow embedding of
    [src/app/modules/angular-slickgrid/services/sort.service.ts]
    (class [SortService]) and the properties of its local comparator,
    preset reconciliation, local and backend sort handlers, change
    notification and disposal. *)

From Stdlib Require Import ZArith List Lia Permutation Ascii String.
From stdpp Require Import base option list strings gmap pretty.

Local Open Scope string_scope.
Local Open Scope Z_scope.

(** ** What the file imports

    [sort.service.ts] imports its value types and helpers from
    [./../models/index], [../sorters/sorterUtilities] and [./utilities],
    none of which is part of the service.  The embedding is parametric in
    them. *)
Class JsHost : Type := {
  (** the values of type [any] the service only passes around: row cells,
      DOM events, queries, promises and their results *)
  Value : Type;
  undefined : Value;
  (** JavaScript truthiness of such a value *)
  truthy : Value -> bool;
  (** the enum [FieldType] of [models/index] and its member [string] *)
  FieldType : Type;
  FieldType_string : FieldType;
  (** truthiness of an enum member (a numeric member 0 is falsy) *)
  fieldType_truthy : FieldType -> bool;
  (** [sortByFieldType(value1, value2, fieldType, sortDirection)] of
      [../sorters/sorterUtilities] *)
  sortByFieldType : Value -> Value -> FieldType -> Z -> Z;
  (** [String.prototype.toUpperCase] *)
  toUpperCase : string -> string
}.

(** Modelled from the spec: the members [ASC] and [DESC] of the enum
    [SortDirection] of [models/index], which is not in src/; the spec gives
    a direction as one of ASC|DESC and compares the uppercased preset
    direction to ASC. *)
Definition SortDirection_ASC : string := "ASC".
Definition SortDirection_DESC : string := "DESC".

(** ** Data model *)

(** A column identifier, [number | string]; [===] never identifies a number
    with a string. *)
Inductive ColumnId : Type :=
| IdString (s : string)
| IdNumber (n : Z).

Global Instance ColumnId_eq_dec : EqDecision ColumnId.
Proof. solve_decision. Defined.

(** [id + '']: a number id is an integer here and prints in decimal, as
    JavaScript prints the integers below 1e21. *)
Definition id_to_string (i : ColumnId) : string :=
  match i with
  | IdString s => s
  | IdNumber n => pretty n
  end.

(** The double quote character, as a string. *)
Definition dquote : string := String (ascii_of_nat 34) EmptyString.

(** Truthiness of an optional string property: [undefined] and [''] are
    falsy. *)
Definition string_truthy (s : string) : bool :=
  match s with
  | EmptyString => false
  | String _ _ => true
  end.

(** [a || b] where [a] is an optional string property. *)
Definition or_string (a : option string) (b : string) : string :=
  match a with
  | Some s => if string_truthy s then s else b
  | None => b
  end.

(** [CurrentSorter]: one entry of the canonical sorter state. *)
Record CurrentSorter : Type := mkCurrentSorter {
  cs_columnId : ColumnId;
  cs_direction : string
}.

Global Instance CurrentSorter_eq_dec : EqDecision CurrentSorter.
Proof. solve_decision. Defined.

Section Model.
Context `{JsHost}.

(** [Column]: the properties of a column definition the service reads. *)
Record Column : Type := mkColumn {
  id : ColumnId;
  field : string;
  queryField : option string;
  queryFieldFilter : option string;
  type : option FieldType
}.

(** [SortChanged]: one [{columnId?, sortAsc, sortCol}] entry of a sort
    gesture or of the reconciled presets. *)
Record SortChanged : Type := mkSortChanged {
  columnId : option ColumnId;
  sortAsc : bool;
  sortCol : option Column
}.

(** A data row, an untyped keyed record; a missing key reads as
    [undefined]. *)
Definition row_get (row : gmap string Value) (key : string) : Value :=
  default undefined (row !! key).

(** ** The comparator of [onLocalSortChanged] *)

(** [sortCol.queryField || sortCol.queryFieldFilter || sortCol.field] *)
Definition sortFieldOf (c : Column) : string :=
  or_string (queryField c) (or_string (queryFieldFilter c) (field c)).

(** [sortCol.type || FieldType.string] *)
Definition fieldTypeOf (c : Column) : FieldType :=
  match type c with
  | Some t => if fieldType_truthy t then t else FieldType_string
  | None => FieldType_string
  end.

(** [columnSortObj.sortAsc ? 1 : -1] *)
Definition sortDirectionOf (columnSortObj : SortChanged) : Z :=
  if sortAsc columnSortObj then 1 else -1.

(** The [for] loop over an array [sortColumns]: the first entry with a
    truthy [sortCol] decides and returns; past the end the result is 0.
    An entry of the array is an object, so [columnSortObj &&
    columnSortObj.sortCol] is [sortCol] being set. *)
Fixpoint compareRows (sortColumns : list SortChanged)
    (dataRow1 dataRow2 : gmap string Value) : Z :=
  match sortColumns with
  | [] => 0
  | columnSortObj :: rest =>
      match sortCol columnSortObj with
      | Some c =>
          let sortDirection := sortDirectionOf columnSortObj in
          let sortField := sortFieldOf c in
          let fieldType := fieldTypeOf c in
          let value1 := row_get dataRow1 sortField in
          let value2 := row_get dataRow2 sortField in
          sortByFieldType value1 value2 fieldType sortDirection
      | None => compareRows rest dataRow1 dataRow2
      end
  end.

(** What a [throw] carries: a [TypeError] of the runtime, an [Error] the
    service raises itself, or the reason of a rejected promise. *)
Inductive JsError : Type :=
| TypeError (msg : string)
| Error (msg : string)
| Rejection (reason : Value).

Inductive Completion (A : Type) : Type :=
| Normal (a : A)
| Thrown (e : JsError).
Global Arguments Normal {A} a.
Global Arguments Thrown {A} e.

(** A specification the loop passes over: its [sortCol] is not set. *)
Definition unresolved (columnSortObj : SortChanged) : Prop :=
  sortCol columnSortObj = None.

(** The closure handed to [dataView.sort].  [sortColumns.length] needs
    [sortColumns] to be defined: the callback of [attachLocalOnSort] passes
    on [args.sortCols] as it finds it, [None] here when the property is not
    set. *)
Definition localComparator (sortColumns : option (list SortChanged))
    (dataRow1 dataRow2 : gmap string Value) : Completion Z :=
  match sortColumns with
  | None => Thrown (TypeError "Cannot read property 'length' of undefined")
  | Some l => Normal (compareRows l dataRow1 dataRow2)
  end.

(** ** Collaborators

    The grid, the data view, the backend service and the host's hooks are
    external objects.  A function-valued property is a flag telling whether
    it is set; calling it is an external call (see [Call]). *)
Record SlickEvent : Type := mkSlickEvent {
  ev_id : nat;
  (** [typeof ev.unsubscribe === 'function'] *)
  ev_unsubscribe : bool
}.

Record BackendService : Type := mkBackendService {
  svc_id : nat;
  getCurrentSorters : bool
}.

Record BackendServiceApi : Type := mkBackendServiceApi {
  api_id : nat;
  preProcess : bool;
  process : bool;
  service : option BackendService;
  internalPostProcess : bool;
  postProcess : bool
}.

Record Presets : Type := mkPresets {
  sorters : option (list CurrentSorter)
}.

Record GridOption : Type := mkGridOption {
  backendServiceApi : option BackendServiceApi;
  onBackendEventApi : option BackendServiceApi;
  presets : option Presets
}.

Record Grid : Type := mkGrid {
  grid_id : nat;
  onSort : SlickEvent;
  (** what [grid.getOptions()] returns *)
  getOptions : option GridOption
}.

Record DataView : Type := mkDataView {
  dv_id : nat;
  onRowCountChanged : SlickEvent
}.

(** The payload of a sort event of the grid. *)
Record SortArgs : Type := mkSortArgs {
  args_grid : option Grid;
  args_multiColumnSort : bool;
  (** [None] when [args.sortCols] is not set *)
  args_sortCols : option (list SortChanged);
  args_sortAsc : bool;
  args_sortCol : option Column
}.

(** The payload of a row-count event of the data view. *)
Record RowCountArgs : Type := mkRowCountArgs {
  previous : Z;
  current : Z
}.

(** The fields of a [SortService]; [_eventHandler] and [onSortChanged] are
    created with the object and never reassigned. *)
Record SortService : Type := mkSortService {
  _currentLocalSorters : list CurrentSorter;
  _grid : option Grid;
  _gridOptions : option GridOption;
  _slickSubscriber : option SlickEvent
}.

Definition new_SortService : SortService :=
  {| _currentLocalSorters := [];
     _grid := None;
     _gridOptions := None;
     _slickSubscriber := None |}.

Inductive Sender : Type := SenderLocal | SenderRemote.

(** The callbacks the service registers. *)
Inductive Handler : Type :=
| BackendOnSortHandler
| LocalOnSortHandler (grid : Grid) (gridOptions : option GridOption)
    (dataView : DataView)
| RowCountChangedHandler (grid : Grid) (gridOptions : option GridOption)
    (dataView : DataView) (columnDefinitions : list Column).

(** The outcome of awaiting [castToPromise(observableOrPromise)]. *)
Inductive Settled : Type :=
| Fulfilled (result : Value)
| Rejected (reason : Value).

(** ** External calls

    [Call R] is a call into a collaborator that answers with an [R]. *)
Inductive Call : Type -> Type :=
(** [ev.subscribe(fn)] *)
| SlickSubscribe (ev : SlickEvent) (fn : Handler) : Call unit
(** [this._eventHandler.subscribe(ev, fn)] *)
| EventHandlerSubscribe (ev : SlickEvent) (fn : Handler) : Call unit
(** [ev.unsubscribe()] *)
| SlickUnsubscribe (ev : SlickEvent) : Call unit
(** [this._eventHandler.unsubscribeAll()] *)
| EventHandlerUnsubscribeAll : Call unit
(** [backendApi.preProcess()] *)
| PreProcess (backendApi : BackendServiceApi) : Call unit
(** [backendApi.service.onSortChanged(event, args)] *)
| ServiceOnSortChanged (backendService : BackendService) (event : Value)
    (args : SortArgs) : Call Value
(** [backendApi.process(query)] *)
| Process (backendApi : BackendServiceApi) (query : Value) : Call Value
(** [await castToPromise(observableOrPromise)] *)
| Await (observableOrPromise : Value) : Call Settled
(** [backendApi.internalPostProcess(processResult)] *)
| InternalPostProcess (backendApi : BackendServiceApi)
    (processResult : Value) : Call unit
(** [backendApi.postProcess(processResult)] *)
| PostProcess (backendApi : BackendServiceApi) (processResult : Value)
  : Call unit
(** [backendService.getCurrentSorters()] *)
| ServiceGetCurrentSorters (backendService : BackendService)
  : Call (list CurrentSorter)
(** [this.onSortChanged.next(sorters)] *)
| SubjectNext (currentSorters : list CurrentSorter) : Call unit
(** [dataView.sort(comparer)]; the answer lists the row pairs the view
    hands to [comparer] while it sorts *)
| DataViewSort (dataView : DataView)
    (comparer : gmap string Value -> gmap string Value -> Completion Z)
  : Call (list (gmap string Value * gmap string Value))
(** [grid.invalidate()] *)
| GridInvalidate (grid : Grid) : Call unit
(** [grid.render()] *)
| GridRender (grid : Grid) : Call unit
(** [grid.setSortColumns(sortCols)] *)
| GridSetSortColumns (grid : Grid) (sortCols : list SortChanged) : Call unit
(** a mark left where the row-count callback calls
    [this.loadLocalPresets(...)]; it records the call and does nothing *)
| CallsLoadLocalPresets : Call unit.

(** A computation that makes external calls and ends with an [A]. *)
Inductive Prog (A : Type) : Type :=
| Ret (a : A)
| Do (R : Type) (c : Call R) (k : R -> Prog A).
Global Arguments Ret {A} a.
Global Arguments Do {A R} c k.

Fixpoint prog_bind {A B : Type} (p : Prog A) (f : A -> Prog B) : Prog B :=
  match p with
  | Ret a => f a
  | Do c k => Do c (fun r => prog_bind (k r) f)
  end.

(** A method of the service: it reads and writes the fields of [this],
    makes external calls, and returns or throws; the fields survive a
    throw. *)
Definition M (A : Type) : Type :=
  SortService -> Prog (Completion A * SortService).

Definition ret {A : Type} (a : A) : M A :=
  fun this => Ret (Normal a, this).

Definition throw {A : Type} (e : JsError) : M A :=
  fun this => Ret (Thrown e, this).

Definition bind {A B : Type} (m : M A) (f : A -> M B) : M B :=
  fun this =>
    prog_bind (m this) (fun r =>
      match fst r with
      | Normal a => f a (snd r)
      | Thrown e => Ret (Thrown e, snd r)
      end).

Definition call {R : Type} (c : Call R) : M R :=
  fun this => Do c (fun r => Ret (Normal r, this)).

Definition get_this : M SortService :=
  fun this => Ret (Normal this, this).

Definition put_this (this' : SortService) : M unit :=
  fun _ => Ret (Normal tt, this').

End Model.

Declare Scope js_scope.
Delimit Scope js_scope with js.
Notation "x <- m ;; k" := (bind m (fun x => k))
  (at level 100, m at next level, right associativity) : js_scope.
Notation "m ;; k" := (bind m (fun _ => k))
  (at level 100, right associativity) : js_scope.
Local Open Scope js_scope.

Section Service.
Context `{JsHost}.

(** [this._currentLocalSorters = sorters] *)
Definition with_sorters (this : SortService) (l : list CurrentSorter)
  : SortService :=
  {| _currentLocalSorters := l;
     _grid := _grid this;
     _gridOptions := _gridOptions this;
     _slickSubscriber := _slickSubscriber this |}.

Definition set_currentLocalSorters (l : list CurrentSorter) : M unit :=
  this <- get_this ;;
  put_this (with_sorters this l).

(** [this._currentLocalSorters.push(sorter)] *)
Definition push_currentLocalSorter (sorter : CurrentSorter) : M unit :=
  this <- get_this ;;
  set_currentLocalSorters (_currentLocalSorters this ++ [sorter])%list.

(** [array.forEach(body)] *)
Fixpoint forEach {A : Type} (body : A -> M unit) (array : list A) : M unit :=
  match array with
  | [] => ret tt
  | x :: rest => body x ;; forEach body rest
  end.

(** [if (cond) { body }] *)
Definition when (cond : bool) (body : M unit) : M unit :=
  if cond then body else ret tt.

(** [dataView.sort(comparer)]: an exception of [comparer] on a pair the
    view compares leaves [sort] as it is thrown. *)
Fixpoint firstThrown {A : Type} (l : list (Completion A)) : M unit :=
  match l with
  | [] => ret tt
  | Normal _ :: rest => firstThrown rest
  | Thrown e :: _ => throw e
  end.

Definition dataView_sort (dataView : DataView)
    (comparer : gmap string Value -> gmap string Value -> Completion Z)
  : M unit :=
  compared <- call (DataViewSort dataView comparer) ;;
  firstThrown (map (fun rows => comparer (fst rows) (snd rows)) compared).

(** *** [getCurrentLocalSorters] *)
Definition getCurrentLocalSorters : M (list CurrentSorter) :=
  this <- get_this ;;
  ret (_currentLocalSorters this).

(** *** [emitSortChanged] *)

(** [this._gridOptions && this._gridOptions.backendServiceApi] *)
Definition storedBackendServiceApi (this : SortService)
  : option BackendServiceApi :=
  match _gridOptions this with
  | Some gridOptions => backendServiceApi gridOptions
  | None => None
  end.

Definition emitSortChanged (sender : Sender) : M unit :=
  this <- get_this ;;
  match sender, storedBackendServiceApi this with
  | SenderRemote, Some backendServiceApi =>
      let backendService := service backendServiceApi in
      currentSorters <-
        match backendService with
        | Some backendService =>
            if getCurrentSorters backendService
            then call (ServiceGetCurrentSorters backendService)
            else ret []
        | None => ret []
        end ;;
      call (SubjectNext currentSorters)
  | SenderRemote, None => ret tt
  | SenderLocal, _ =>
      currentSorters <- getCurrentLocalSorters ;;
      call (SubjectNext currentSorters)
  end.

(** *** [onLocalSortChanged] *)
Definition onLocalSortChanged (grid : Grid) (gridOptions : option GridOption)
    (dataView : DataView) (sortColumns : option (list SortChanged))
  : M unit :=
  dataView_sort dataView (localComparator sortColumns) ;;
  call (GridInvalidate grid) ;;
  call (GridRender grid).

(** *** [loadLocalPresets] *)

(** [sorters.find(currentSorter => currentSorter.columnId === columnDef.id)] *)
Definition findPreset (sorters : list CurrentSorter) (columnDef : Column)
  : option CurrentSorter :=
  find (fun currentSorter =>
          bool_decide (cs_columnId currentSorter = id columnDef)) sorters.

(** The object pushed on [sortCols] for a column and its preset. *)
Definition presetSortCol (columnDef : Column) (columnPreset : CurrentSorter)
  : SortChanged :=
  {| columnId := Some (id columnDef);
     sortAsc := bool_decide (toUpperCase (cs_direction columnPreset)
                             = SortDirection_ASC);
     sortCol := Some columnDef |}.

(** The object pushed on [this._currentLocalSorters] for them. *)
Definition presetSorter (columnDef : Column) (columnPreset : CurrentSorter)
  : CurrentSorter :=
  {| cs_columnId := IdString (id_to_string (id columnDef));
     cs_direction := toUpperCase (cs_direction columnPreset) |}.

(** The body of [columnDefinitions.forEach]; [sortCols], a local array of
    the method, is threaded through. *)
Fixpoint presetsForEach (sorters : list CurrentSorter)
    (columnDefinitions : list Column) (sortCols : list SortChanged)
  : M (list SortChanged) :=
  match columnDefinitions with
  | [] => ret sortCols
  | columnDef :: rest =>
      match findPreset sorters columnDef with
      | Some columnPreset =>
          let sortCols' :=
            (sortCols ++ [presetSortCol columnDef columnPreset])%list in
          push_currentLocalSorter (presetSorter columnDef columnPreset) ;;
          presetsForEach sorters rest sortCols'
      | None => presetsForEach sorters rest sortCols
      end
  end.

(** [gridOptions && gridOptions.presets && gridOptions.presets.sorters] *)
Definition presetSorters (gridOptions : option GridOption)
  : option (list CurrentSorter) :=
  match gridOptions with
  | Some gridOptions =>
      match presets gridOptions with
      | Some presets => sorters presets
      | None => None
      end
  | None => None
  end.

Definition loadLocalPresets (grid : Grid) (gridOptions : option GridOption)
    (dataView : DataView) (columnDefinitions : list Column) : M unit :=
  set_currentLocalSorters [] ;;
  match presetSorters gridOptions with
  | Some sorters =>
      sortCols <- presetsForEach sorters columnDefinitions [] ;;
      when (0 <? Z.of_nat (length sortCols))
        (onLocalSortChanged grid gridOptions dataView (Some sortCols) ;;
         call (GridSetSortColumns grid sortCols))
  | None => ret tt
  end.

(** *** The callbacks of [attachLocalOnSort] *)

(** [args.multiColumnSort ? args.sortCols
      : new Array({sortAsc: args.sortAsc, sortCol: args.sortCol})] *)
Definition gestureSortColumns (args : SortArgs)
  : option (list SortChanged) :=
  if args_multiColumnSort args
  then args_sortCols args
  else Some [ {| columnId := None;
                 sortAsc := args_sortAsc args;
                 sortCol := args_sortCol args |} ].

(** The callback subscribed to [grid.onSort]. *)
Definition localOnSort (grid : Grid) (gridOptions : option GridOption)
    (dataView : DataView) (e : Value) (args : option SortArgs) : M unit :=
  match args with
  | None =>
      throw (TypeError "Cannot read property 'multiColumnSort' of undefined")
  | Some args =>
      let sortColumns := gestureSortColumns args in
      set_currentLocalSorters [] ;;
      match sortColumns with
      | Some array =>
          forEach (fun sortColumn =>
            match sortCol sortColumn with
            | Some c =>
                push_currentLocalSorter
                  {| cs_columnId := id c;
                     cs_direction :=
                       if sortAsc sortColumn
                       then SortDirection_ASC else SortDirection_DESC |}
            | None => ret tt
            end) array
      | None => ret tt
      end ;;
      onLocalSortChanged grid gridOptions dataView sortColumns ;;
      emitSortChanged SenderLocal
  end.

(** The callback subscribed to [dataView.onRowCountChanged]. *)
Definition localOnRowCountChanged (grid : Grid)
    (gridOptions : option GridOption) (dataView : DataView)
    (columnDefinitions : list Column) (e : Value) (args : RowCountArgs)
  : M unit :=
  when (0 <? current args)
    (call CallsLoadLocalPresets ;;
     loadLocalPresets grid gridOptions dataView columnDefinitions).

(** *** [attachLocalOnSort] *)
Definition attachLocalOnSort (grid : Grid) (gridOptions : option GridOption)
    (dataView : DataView) (columnDefinitions : list Column) : M unit :=
  this <- get_this ;;
  put_this {| _currentLocalSorters := _currentLocalSorters this;
              _grid := Some grid;
              _gridOptions := gridOptions;
              _slickSubscriber := Some (onSort grid) |} ;;
  call (SlickSubscribe (onSort grid)
          (LocalOnSortHandler grid gridOptions dataView)) ;;
  call (EventHandlerSubscribe (onRowCountChanged dataView)
          (RowCountChangedHandler grid gridOptions dataView
             columnDefinitions)).

(** *** [attachBackendOnSortSubscribe] *)
Definition argsNotPopulated : string :=
  ("Something went wrong when trying to attach the " ++ dquote
   ++ "attachBackendOnSortSubscribe(event, args)" ++ dquote
   ++ " function, it seems that " ++ dquote ++ "args" ++ dquote
   ++ " is not populated correctly")%string.

Definition backendApiRequired : string :=
  ("BackendServiceApi requires at least a " ++ dquote ++ "process" ++ dquote
   ++ " function and a " ++ dquote ++ "service" ++ dquote
   ++ " defined")%string.

(** [args.grid.getOptions() || {}] *)
Definition gridOptionsOf (grid : Grid) : GridOption :=
  default {| backendServiceApi := None;
             onBackendEventApi := None;
             presets := None |} (getOptions grid).

(** [gridOptions.backendServiceApi || gridOptions.onBackendEventApi] *)
Definition backendApiOf (gridOptions : GridOption)
  : option BackendServiceApi :=
  match backendServiceApi gridOptions with
  | Some api => Some api
  | None => onBackendEventApi gridOptions
  end.

(** [args] and [args.grid] when neither [!args] nor [!args.grid] holds. *)
Definition populatedArgs (args : option SortArgs) : option (SortArgs * Grid) :=
  match args with
  | Some args =>
      match args_grid args with
      | Some grid => Some (args, grid)
      | None => None
      end
  | None => None
  end.

(** The [async] method: what follows [Await] runs once the promise is
    settled; a [Thrown] completion is the rejection of the promise the
    method returns. *)
Definition attachBackendOnSortSubscribe (event : Value)
    (args : option SortArgs) : M unit :=
  match populatedArgs args with
  | None => throw (Error argsNotPopulated)
  | Some (args, grid) =>
      let gridOptions := gridOptionsOf grid in
      match backendApiOf gridOptions with
      | None => throw (Error backendApiRequired)
      | Some backendApi =>
          match process backendApi, service backendApi with
          | true, Some backendService =>
              when (preProcess backendApi) (call (PreProcess backendApi)) ;;
              query <- call (ServiceOnSortChanged backendService event args) ;;
              emitSortChanged SenderRemote ;;
              observableOrPromise <- call (Process backendApi query) ;;
              settled <- call (Await observableOrPromise) ;;
              match settled with
              | Rejected reason => throw (Rejection reason)
              | Fulfilled processResult =>
                  when (truthy processResult && internalPostProcess backendApi)
                    (call (InternalPostProcess backendApi processResult)) ;;
                  when (postProcess backendApi)
                    (call (PostProcess backendApi processResult))
              end
          | _, _ => throw (Error backendApiRequired)
          end
      end
  end.

(** *** [attachBackendOnSort] *)
Definition attachBackendOnSort (grid : Grid) (gridOptions : option GridOption)
  : M unit :=
  this <- get_this ;;
  put_this {| _currentLocalSorters := _currentLocalSorters this;
              _grid := Some grid;
              _gridOptions := gridOptions;
              _slickSubscriber := Some (onSort grid) |} ;;
  call (SlickSubscribe (onSort grid) BackendOnSortHandler).

(** *** [dispose] *)
Definition dispose : M unit :=
  this <- get_this ;;
  match _slickSubscriber this with
  | Some subscriber =>
      when (ev_unsubscribe subscriber) (call (SlickUnsubscribe subscriber))
  | None => ret tt
  end ;;
  call EventHandlerUnsubscribeAll.

End Service.

(** ** Running a method against its collaborators *)
Section Semantics.
Context `{JsHost}.

(** One external call together with the answer it got. *)
Inductive Event : Type :=
| Ev (R : Type) (c : Call R) (r : R).
Global Arguments Ev {R} c r.

(** The collaborators: they answer every call and keep a state [W] of
    their own. *)
Definition Env (W : Type) : Type := forall R : Type, Call R -> W -> R * W.

(** The calls made, the result, and the collaborators' final state. *)
Fixpoint run {W A : Type} (env : Env W) (p : Prog A) (w : W)
  : list Event * A * W :=
  match p with
  | Ret a => ([], a, w)
  | Do c k =>
      let answer := env _ c w in
      let rest := run env (k (fst answer)) (snd answer) in
      (Ev c (fst answer) :: fst (fst rest), snd (fst rest), snd rest)
  end.

Definition trace {W A : Type} (env : Env W) (m : M A) (this : SortService)
    (w : W) : list Event :=
  fst (fst (run env (m this) w)).

Definition completion {W A : Type} (env : Env W) (m : M A)
    (this : SortService) (w : W) : Completion A :=
  fst (snd (fst (run env (m this) w))).

Definition after {W A : Type} (env : Env W) (m : M A) (this : SortService)
    (w : W) : SortService :=
  snd (snd (fst (run env (m this) w))).

Definition world_after {W A : Type} (env : Env W) (m : M A)
    (this : SortService) (w : W) : W :=
  snd (run env (m this) w).

(** Collaborators that always give the same answers. *)
Definition constEnv (query promise : Value) (settled : Settled)
    (serviceSorters : list CurrentSorter)
    (compared : list (gmap string Value * gmap string Value)) : Env unit :=
  fun R c w =>
    match c in Call R return R * unit with
    | ServiceOnSortChanged _ _ _ => (query, w)
    | Process _ _ => (promise, w)
    | Await _ => (settled, w)
    | ServiceGetCurrentSorters _ => (serviceSorters, w)
    | DataViewSort _ _ => (compared, w)
    | SlickSubscribe _ _ | EventHandlerSubscribe _ _ | SlickUnsubscribe _
    | EventHandlerUnsubscribeAll | PreProcess _ | InternalPostProcess _ _
    | PostProcess _ _ | SubjectNext _ | GridInvalidate _ | GridRender _
    | GridSetSortColumns _ _ | CallsLoadLocalPresets => (tt, w)
    end.

(** *** Kinds of calls in a trace *)
Definition is_preProcess (e : Event) : bool :=
  match e with Ev (PreProcess _) _ => true | _ => false end.

Definition is_process (e : Event) : bool :=
  match e with Ev (Process _ _) _ => true | _ => false end.

Definition is_await (e : Event) : bool :=
  match e with Ev (Await _) _ => true | _ => false end.

Definition is_internalPostProcess (e : Event) : bool :=
  match e with Ev (InternalPostProcess _ _) _ => true | _ => false end.

Definition is_postProcess (e : Event) : bool :=
  match e with Ev (PostProcess _ _) _ => true | _ => false end.

(** an emission on the [onSortChanged] subject *)
Definition is_emission (e : Event) : bool :=
  match e with Ev (SubjectNext _) _ => true | _ => false end.

Definition is_hook (e : Event) : bool :=
  is_preProcess e || is_process e || is_internalPostProcess e
  || is_postProcess e.

Definition is_loadLocalPresets (e : Event) : bool :=
  match e with Ev CallsLoadLocalPresets _ => true | _ => false end.

Definition is_invalidate (e : Event) : bool :=
  match e with Ev (GridInvalidate _) _ => true | _ => false end.

Definition is_render (e : Event) : bool :=
  match e with Ev (GridRender _) _ => true | _ => false end.

(** The sorter lists emitted, in emission order. *)
Fixpoint emitted (t : list Event) : list (list CurrentSorter) :=
  match t with
  | [] => []
  | Ev (SubjectNext l) _ :: rest => l :: emitted rest
  | _ :: rest => emitted rest
  end.

(** Every [P] call of the trace comes strictly before every [Q] call. *)
Definition strictly_before (P Q : Event -> bool) (t : list Event) : Prop :=
  forall (i j : nat) (e e' : Event),
    t !! i = Some e -> t !! j = Some e' ->
    P e = true -> Q e' = true -> (i < j)%nat.

(** *** Vocabulary of the statements *)

(** Some preset names the column. *)
Definition hasPreset (sorters : list CurrentSorter) (columnDef : Column)
  : bool :=
  existsb (fun currentSorter =>
             bool_decide (cs_columnId currentSorter = id columnDef)) sorters.

(** The columns with a preset, in column order, each with the preset
    [find] returns for it. *)
Fixpoint matchedPresets (sorters : list CurrentSorter)
    (columnDefinitions : list Column) : list (Column * CurrentSorter) :=
  match columnDefinitions with
  | [] => []
  | columnDef :: rest =>
      match findPreset sorters columnDef with
      | Some columnPreset =>
          (columnDef, columnPreset) :: matchedPresets sorters rest
      | None => matchedPresets sorters rest
      end
  end.

(** The canonical entries a gesture's array gives rise to: one per entry
    whose column is present, in order. *)
Fixpoint gestureSorters (sortColumns : list SortChanged)
  : list CurrentSorter :=
  match sortColumns with
  | [] => []
  | sortColumn :: rest =>
      match sortCol sortColumn with
      | Some c =>
          {| cs_columnId := id c;
             cs_direction := if sortAsc sortColumn
                             then SortDirection_ASC else SortDirection_DESC |}
          :: gestureSorters rest
      | None => gestureSorters rest
      end
  end.

(** The column of a pair is present. *)
Definition columnPresent (sortColumn : SortChanged) : bool :=
  match sortCol sortColumn with
  | Some _ => true
  | None => false
  end.

(** A row-count report that goes from no rows to some rows. *)
Definition zeroToPositive (report : RowCountArgs) : bool :=
  (previous report =? 0) && (0 <? current report).

(** [m] called [n] times in a row. *)
Fixpoint times (n : nat) (m : M unit) : M unit :=
  match n with
  | O => ret tt
  | S k => m ;; times k m
  end.

(** The position of a call in one run of the backend callback. *)
Definition phase (e : Event) : nat :=
  match e with
  | Ev (PreProcess _) _ => 0
  | Ev (ServiceOnSortChanged _ _ _) _ => 1
  | Ev (ServiceGetCurrentSorters _) _ => 2
  | Ev (SubjectNext _) _ => 3
  | Ev (Process _ _) _ => 4
  | Ev (Await _) _ => 5
  | Ev (InternalPostProcess _ _) _ => 6
  | Ev (PostProcess _ _) _ => 7
  | _ => 8
  end.

Fixpoint increasing (l : list nat) : bool :=
  match l with
  | [] => true
  | a :: rest =>
      match rest with
      | [] => true
      | b :: _ => (a <? b)%nat && increasing rest
      end
  end.

End Semantics.

(** ** A host to run examples on *)
Inductive DemoValue : Type :=
| VUndefined
| VNumber (n : Z)
| VString (s : string).

Inductive DemoFieldType : Type :=
| FT_unknown
| FT_string
| FT_number.

Definition demo_truthy (v : DemoValue) : bool :=
  match v with
  | VUndefined => false
  | VNumber n => negb (n =? 0)
  | VString s => string_truthy s
  end.

Definition sign (c : comparison) : Z :=
  match c with
  | Lt => -1
  | Eq => 0
  | Gt => 1
  end.

Definition demo_compare (t : DemoFieldType) (v1 v2 : DemoValue) : Z :=
  match t, v1, v2 with
  | FT_number, VNumber a, VNumber b => sign (a ?= b)
  | _, VString a, VString b => sign (String.compare a b)
  | _, _, _ => 0
  end.

Definition upper_ascii (c : ascii) : ascii :=
  let n := nat_of_ascii c in
  if ((97 <=? n) && (n <=? 122))%nat then ascii_of_nat (n - 32) else c.

Fixpoint upper_string (s : string) : string :=
  match s with
  | EmptyString => EmptyString
  | String c rest => String (upper_ascii c) (upper_string rest)
  end.

Global Instance demoHost : JsHost :=
  {| Value := DemoValue;
     undefined := VUndefined;
     truthy := demo_truthy;
     FieldType := DemoFieldType;
     FieldType_string := FT_string;
     fieldType_truthy :=
       fun t => match t with FT_unknown => false | _ => true end;
     sortByFieldType :=
       fun value1 value2 fieldType sortDirection =>
         sortDirection * demo_compare fieldType value1 value2;
     toUpperCase := upper_string |}.

(** Three columns, two rows, presets given out of column order, and a grid
    with its data view. *)
Definition demo_colA : Column :=
  {| id := IdString "A"; field := "a"; queryField := None;
     queryFieldFilter := None; type := Some FT_number |}.

Definition demo_colB : Column :=
  {| id := IdString "B"; field := "b"; queryField := Some "b.sortKey";
     queryFieldFilter := Some "b.filterKey"; type := None |}.

Definition demo_colC : Column :=
  {| id := IdNumber 3; field := "c"; queryField := Some "";
     queryFieldFilter := None; type := Some FT_unknown |}.

Definition demo_columns : list Column := [demo_colA; demo_colB; demo_colC].

Definition demo_row1 : gmap string DemoValue :=
  <["a" := VNumber 5]> (<["b.sortKey" := VString "pear"]> ∅).

Definition demo_row2 : gmap string DemoValue :=
  <["a" := VNumber 2]> (<["b.sortKey" := VString "apple"]> ∅).

Definition demo_presets : list CurrentSorter :=
  [ {| cs_columnId := IdString "B"; cs_direction := "desc" |};
    {| cs_columnId := IdString "A"; cs_direction := "asc" |} ].

Definition demo_presetOptions : GridOption :=
  {| backendServiceApi := None;
     onBackendEventApi := None;
     presets := Some {| sorters := Some demo_presets |} |}.

Definition demo_service : BackendService :=
  {| svc_id := 1; getCurrentSorters := true |}.

Definition demo_api : BackendServiceApi :=
  {| api_id := 1; preProcess := true; process := true;
     service := Some demo_service;
     internalPostProcess := true; postProcess := true |}.

Definition demo_backendOptions : GridOption :=
  {| backendServiceApi := Some demo_api;
     onBackendEventApi := None;
     presets := None |}.

(** the backend contract given through the legacy field only *)
Definition demo_legacyOptions : GridOption :=
  {| backendServiceApi := None;
     onBackendEventApi := Some demo_api;
     presets := None |}.

Definition demo_onSort : SlickEvent :=
  {| ev_id := 1; ev_unsubscribe := true |}.

Definition demo_grid (options : option GridOption) : Grid :=
  {| grid_id := 1; onSort := demo_onSort; getOptions := options |}.

Definition demo_dataView : DataView :=
  {| dv_id := 1; onRowCountChanged := {| ev_id := 2; ev_unsubscribe := true |} |}.

(** what the backend service reports as its current sorters *)
Definition demo_serviceSorters : list CurrentSorter :=
  [ {| cs_columnId := IdString "C"; cs_direction := "DESC" |} ].

(** collaborators whose data view compares the two rows when it sorts *)
Definition demo_env : Env unit :=
  constEnv (VString "query") (VString "promise")
    (Fulfilled (VString "result")) demo_serviceSorters
    [(demo_row1, demo_row2)].

(** a service that holds sorters from an earlier gesture *)
Definition demo_sorted : SortService :=
  {| _currentLocalSorters :=
       [ {| cs_columnId := IdString "A"; cs_direction := "ASC" |} ];
     _grid := Some (demo_grid None);
     _gridOptions := None;
     _slickSubscriber := Some demo_onSort |}.

(** a multi-column gesture whose [sortCols] is not set *)
Definition demo_gestureWithoutSortCols : SortArgs :=
  {| args_grid := Some (demo_grid None);
     args_multiColumnSort := true;
     args_sortCols := None;
     args_sortAsc := true;
     args_sortCol := None |}.

(** a single-column gesture on column A, ascending *)
Definition demo_gesture (options : option GridOption) : SortArgs :=
  {| args_grid := Some (demo_grid options);
     args_multiColumnSort := false;
     args_sortCols := None;
     args_sortAsc := true;
     args_sortCol := Some demo_colA |}.

(** a multi-column gesture: a pair without column, B descending, A
    ascending *)
Definition demo_multiGesture : SortArgs :=
  {| args_grid := Some (demo_grid None);
     args_multiColumnSort := true;
     args_sortCols :=
       Some [ {| columnId := None; sortAsc := true; sortCol := None |};
              {| columnId := None; sortAsc := false;
                 sortCol := Some demo_colB |};
              {| columnId := None; sortAsc := true;
                 sortCol := Some demo_colA |} ];
     args_sortAsc := false;
     args_sortCol := None |}.

(** a service after [attachBackendOnSort(grid, options)] *)
Definition demo_attached (options : option GridOption) : SortService :=
  {| _currentLocalSorters := [];
     _grid := Some (demo_grid options);
     _gridOptions := options;
     _slickSubscriber := Some demo_onSort |}.

(** ** Further vocabulary *)
Section MoreVocabulary.
Context `{JsHost}.

(** The answers the awaited promises got, in order. *)
Fixpoint settledOf (t : list Event) : list Settled :=
  match t with
  | [] => []
  | Ev (Await _) settled :: rest => settled :: settledOf rest
  | _ :: rest => settledOf rest
  end.

Definition is_onSortChanged (e : Event) : bool :=
  match e with Ev (ServiceOnSortChanged _ _ _) _ => true | _ => false end.

Definition is_getCurrentSorters (e : Event) : bool :=
  match e with Ev (ServiceGetCurrentSorters _) _ => true | _ => false end.

Definition is_sort (e : Event) : bool :=
  match e with Ev (DataViewSort _ _) _ => true | _ => false end.

Definition is_setSortColumns (e : Event) : bool :=
  match e with Ev (GridSetSortColumns _ _) _ => true | _ => false end.

(** The events subscribed to directly, [ev.subscribe(fn)], in order. *)
Fixpoint subscribed (t : list Event) : list SlickEvent :=
  match t with
  | [] => []
  | Ev (SlickSubscribe ev _) _ :: rest => ev :: subscribed rest
  | _ :: rest => subscribed rest
  end.

(** The events unsubscribed from directly, [ev.unsubscribe()], in order. *)
Fixpoint unsubscribed (t : list Event) : list SlickEvent :=
  match t with
  | [] => []
  | Ev (SlickUnsubscribe ev) _ :: rest => ev :: unsubscribed rest
  | _ :: rest => unsubscribed rest
  end.

(** The preset names its column by a string. *)
Definition stringColumnId (sorter : CurrentSorter) : Prop :=
  exists s, cs_columnId sorter = IdString s.

(** The id of the column is a string. *)
Definition stringId (columnDef : Column) : Prop :=
  exists s, id columnDef = IdString s.

(** The id of the column is a number. *)
Definition numberId (columnDef : Column) : Prop :=
  exists n, id columnDef = IdNumber n.

End MoreVocabulary.

(** collaborators whose awaited promise is rejected *)
Definition demo_rejectingEnv : Env unit :=
  constEnv (VString "query") (VString "promise")
    (Rejected (VString "offline")) demo_serviceSorters
    [(demo_row1, demo_row2)].

(** collaborators whose data view compares no rows when it sorts *)
Definition demo_emptyViewEnv : Env unit :=
  constEnv (VString "query") (VString "promise")
    (Fulfilled (VString "result")) demo_serviceSorters [].

(** a column whose id is a number, and a preset for it *)
Definition demo_colN : Column :=
  {| id := IdNumber 7; field := "n"; queryField := None;
     queryFieldFilter := None; type := None |}.

Definition demo_numberPresetOptions : GridOption :=
  {| backendServiceApi := None;
     onBackendEventApi := None;
     presets :=
       Some {| sorters :=
                 Some [ {| cs_columnId := IdNumber 7;
                           cs_direction := "asc" |} ] |} |}.

(** grid options whose presets are the given sorters *)
Definition demo_optionsWith (sorters : list CurrentSorter)
  : option GridOption :=
  Some {| backendServiceApi := None;
          onBackendEventApi := None;
          presets := Some {| sorters := Some sorters |} |}.

(** a backend service that has no [getCurrentSorters], and its contract *)
Definition demo_plainService : BackendService :=
  {| svc_id := 2; getCurrentSorters := false |}.

Definition demo_plainOptions : GridOption :=
  {| backendServiceApi :=
       Some {| api_id := 2; preProcess := false; process := true;
               service := Some demo_plainService;
               internalPostProcess := false; postProcess := true |};
     onBackendEventApi := None;
     presets := None |}.

(** * Properties *)

(** ** The comparator *)
Section Comparator.
Context `{JsHost}.

Lemma compareRows_skip (skipped rest : list SortChanged)
    (dataRow1 dataRow2 : gmap string Value) :
  Forall unresolved skipped ->
  compareRows (skipped ++ rest) dataRow1 dataRow2
  = compareRows rest dataRow1 dataRow2.
Proof.
  induction 1 as [|s skipped Hs _ IH]; simpl; [reflexivity|].
  unfold unresolved in Hs. rewrite Hs. exact IH.
Qed.




Lemma compareRows_unresolved (sortColumns : list SortChanged)
    (dataRow1 dataRow2 : gmap string Value) :
  Forall unresolved sortColumns ->
  compareRows sortColumns dataRow1 dataRow2 = 0.
Proof.
  induction 1 as [|s l Hs _ IH]; simpl; [reflexivity|].
  unfold unresolved in Hs. rewrite Hs. exact IH.
Qed.



End Comparator.

(** ** Running computations *)
Section RunLemmas.
Context `{JsHost} {W : Type} (env : Env W).

Lemma run_prog_bind {A B : Type} (p : Prog A) (f : A -> Prog B) (w : W) :
  run env (prog_bind p f) w
  = let r := run env p w in
    let r' := run env (f (snd (fst r))) (snd r) in
    (fst (fst r) ++ fst (fst r'), snd (fst r'), snd r')%list.
Proof.
  revert w. induction p as [a | R c k IH]; intros w; simpl.
  - destruct (run env (f a) w) as [[t b] w']. reflexivity.
  - rewrite IH. reflexivity.
Qed.

Lemma run_bind {A B : Type} (m : M A) (f : A -> M B) (this : SortService)
    (w : W) :
  run env (bind m f this) w
  = let r := run env (m this) w in
    match fst (snd (fst r)) with
    | Normal a =>
        let r' := run env (f a (snd (snd (fst r)))) (snd r) in
        (fst (fst r) ++ fst (fst r'), snd (fst r'), snd r')%list
    | Thrown e => (fst (fst r), (Thrown e, snd (snd (fst r))), snd r)
    end.
Proof.
  unfold bind. rewrite run_prog_bind. cbv zeta.
  destruct (fst (snd (fst (run env (m this) w)))); simpl.
  - reflexivity.
  - rewrite app_nil_r. reflexivity.
Qed.

Lemma run_ret {A : Type} (a : A) (this : SortService) (w : W) :
  run env (ret a this) w = ([], (Normal a, this), w).
Proof. reflexivity. Qed.

Lemma run_throw {A : Type} (e : JsError) (this : SortService) (w : W) :
  run env (@throw _ A e this) w = ([], (Thrown e, this), w).
Proof. reflexivity. Qed.

Lemma run_call {R : Type} (c : Call R) (this : SortService) (w : W) :
  run env (call c this) w
  = ([Ev c (fst (env R c w))], (Normal (fst (env R c w)), this),
     snd (env R c w)).
Proof. reflexivity. Qed.

Lemma run_get_this (this : SortService) (w : W) :
  run env (get_this this) w = ([], (Normal this, this), w).
Proof. reflexivity. Qed.

Lemma run_set_currentLocalSorters (l : list CurrentSorter)
    (this : SortService) (w : W) :
  run env (set_currentLocalSorters l this) w
  = ([], (Normal tt, with_sorters this l), w).
Proof. reflexivity. Qed.

Lemma run_push_currentLocalSorter (sorter : CurrentSorter)
    (this : SortService) (w : W) :
  run env (push_currentLocalSorter sorter this) w
  = ([], (Normal tt,
          with_sorters this (_currentLocalSorters this ++ [sorter])%list), w).
Proof. reflexivity. Qed.

Lemma trace_bind {A B : Type} (m : M A) (f : A -> M B) (this : SortService)
    (w : W) :
  trace env (bind m f) this w
  = (trace env m this w
     ++ match completion env m this w with
        | Normal a => trace env (f a) (after env m this w)
                        (world_after env m this w)
        | Thrown _ => []
        end)%list.
Proof.
  unfold trace, completion, after, world_after, bind.
  rewrite run_prog_bind. simpl.
  destruct (fst (snd (fst (run env (m this) w)))); reflexivity.
Qed.

Lemma completion_bind {A B : Type} (m : M A) (f : A -> M B)
    (this : SortService) (w : W) :
  completion env (bind m f) this w
  = match completion env m this w with
    | Normal a => completion env (f a) (after env m this w)
                    (world_after env m this w)
    | Thrown e => Thrown e
    end.
Proof.
  unfold completion, after, world_after, bind.
  rewrite run_prog_bind. simpl.
  destruct (fst (snd (fst (run env (m this) w)))); reflexivity.
Qed.

Lemma after_bind {A B : Type} (m : M A) (f : A -> M B) (this : SortService)
    (w : W) :
  after env (bind m f) this w
  = match completion env m this w with
    | Normal a => after env (f a) (after env m this w)
                    (world_after env m this w)
    | Thrown _ => after env m this w
    end.
Proof.
  unfold completion, after, world_after, bind.
  rewrite run_prog_bind. simpl.
  destruct (fst (snd (fst (run env (m this) w)))); reflexivity.
Qed.

Lemma world_after_bind {A B : Type} (m : M A) (f : A -> M B)
    (this : SortService) (w : W) :
  world_after env (bind m f) this w
  = match completion env m this w with
    | Normal a => world_after env (f a) (after env m this w)
                    (world_after env m this w)
    | Thrown _ => world_after env m this w
    end.
Proof.
  unfold completion, after, world_after, bind.
  rewrite run_prog_bind. simpl.
  destruct (fst (snd (fst (run env (m this) w)))); reflexivity.
Qed.

Lemma run_when_call (b : bool) (c : Call unit) (this : SortService)
    (w : W) :
  run env (when b (call c) this) w
  = if b
    then ([Ev c (fst (env _ c w))], (Normal (fst (env _ c w)), this),
          snd (env _ c w))
    else ([], (Normal tt, this), w).
Proof. destruct b; reflexivity. Qed.

End RunLemmas.

(** *** Proof steps *)
Ltac split_cases :=
  repeat (simpl;
          match goal with
          | |- context [match ?x with _ => _ end] =>
              lazymatch type of x with
              | list _ => fail
              | nat => fail
              | _ => destruct x
              end
          end).

Ltac by_phases :=
  intros [R c r] [R' c' r'];
  destruct c; simpl; try discriminate;
  destruct c'; simpl; try discriminate; intros _ _; lia.

Ltac unit_answers :=
  repeat match goal with
         | |- context [@Ev _ unit _ ?u] =>
             lazymatch u with
             | tt => fail
             | _ => destruct u
             end
         end.

Ltac search_or :=
  match goal with
  | |- _ \/ _ => (left; search_or) || (right; search_or)
  | |- _ = _ => reflexivity
  end.

Ltac find_in :=
  cbv zeta; cbn [fst snd andb app];
  rewrite ?run_when_call; cbn [fst snd andb app];
  rewrite ?in_app_iff; cbn [In fst snd];
  rewrite ?in_app_iff; cbn [In];
  unit_answers; search_or.


(** ** Preset reconciliation *)
Section Presets.
Context `{JsHost}.

Lemma findPreset_hasPreset (sorters : list CurrentSorter) (columnDef : Column) :
  hasPreset sorters columnDef = bool_decide (is_Some (findPreset sorters columnDef)).
Proof.
  unfold hasPreset, findPreset.
  induction sorters as [|p sorters IH]; simpl.
  - reflexivity.
  - destruct (bool_decide (cs_columnId p = id columnDef)); simpl.
    + reflexivity.
    + exact IH.
Qed.

Lemma matchedPresets_columns (sorters : list CurrentSorter)
    (columnDefinitions : list Column) :
  map fst (matchedPresets sorters columnDefinitions)
  = List.filter (hasPreset sorters) columnDefinitions.
Proof.
  induction columnDefinitions as [|c cols IH]; [reflexivity|].
  simpl. rewrite findPreset_hasPreset.
  destruct (findPreset sorters c) as [p|] eqn:Hp; simpl.
  - rewrite IH. reflexivity.
  - exact IH.
Qed.

Lemma matchedPresets_found (sorters : list CurrentSorter)
    (columnDefinitions : list Column) :
  Forall (fun cp => findPreset sorters (fst cp) = Some (snd cp))
         (matchedPresets sorters columnDefinitions).
Proof.
  induction columnDefinitions as [|c cols IH]; simpl; [constructor|].
  destruct (findPreset sorters c) as [p|] eqn:Hp; simpl.
  - constructor; [exact Hp | exact IH].
  - exact IH.
Qed.

Lemma hasPreset_Permutation (sorters sorters' : list CurrentSorter)
    (columnDef : Column) :
  Permutation sorters sorters' ->
  hasPreset sorters columnDef = hasPreset sorters' columnDef.
Proof.
  unfold hasPreset. intros HP.
  induction HP as [|p l l' _ IH|p q l|l l' l'' _ IH1 _ IH2]; simpl.
  - reflexivity.
  - rewrite IH. reflexivity.
  - destruct (bool_decide (cs_columnId p = id columnDef)),
             (bool_decide (cs_columnId q = id columnDef)); reflexivity.
  - congruence.
Qed.

(** What the loop over the column definitions leaves behind: the local
    array and the canonical state both grow by one entry per matched
    column, in column order, and no external call is made. *)
Lemma run_presetsForEach {W : Type} (env : Env W)
    (sorters : list CurrentSorter) (columnDefinitions : list Column)
    (sortCols : list SortChanged) (this : SortService) (w : W) :
  run env (presetsForEach sorters columnDefinitions sortCols this) w
  = ([],
     (Normal (sortCols
              ++ map (fun cp => presetSortCol (fst cp) (snd cp))
                     (matchedPresets sorters columnDefinitions))%list,
      with_sorters this
        (_currentLocalSorters this
         ++ map (fun cp => presetSorter (fst cp) (snd cp))
                (matchedPresets sorters columnDefinitions))%list),
     w).
Proof.
  revert sortCols this.
  induction columnDefinitions as [|c cols IH]; intros sortCols this.
  - simpl. rewrite !app_nil_r. destruct this; reflexivity.
  - simpl.
    destruct (findPreset sorters c) as [p|] eqn:Hp; simpl.
    + unfold bind, push_currentLocalSorter, set_currentLocalSorters,
        get_this, put_this. simpl.
      rewrite IH. simpl. rewrite <- !app_assoc. reflexivity.
    + apply IH.
Qed.

Lemma firstThrown_array (array : list SortChanged)
    (compared : list (gmap string Value * gmap string Value))
    (this : SortService) :
  firstThrown
    (map (fun rows => localComparator (Some array) (fst rows) (snd rows))
         compared) this
  = Ret (Normal tt, this).
Proof.
  induction compared as [|rows compared IH]; simpl; [reflexivity | exact IH].
Qed.

Lemma dataView_sort_array {W : Type} (env : Env W) (dataView : DataView)
    (array : list SortChanged) (this : SortService) (w : W) :
  run env (dataView_sort dataView (localComparator (Some array)) this) w
  = let answer :=
      env _ (DataViewSort dataView (localComparator (Some array))) w in
    ([Ev (DataViewSort dataView (localComparator (Some array))) (fst answer)],
     (Normal tt, this), snd answer).
Proof.
  unfold dataView_sort, bind, call. cbn [run prog_bind fst snd].
  rewrite firstThrown_array. reflexivity.
Qed.

(** With an array of specifications [onLocalSortChanged] sorts,
    invalidates and renders, and returns. *)
Lemma run_onLocalSortChanged_array {W : Type} (env : Env W) (grid : Grid)
    (gridOptions : option GridOption) (dataView : DataView)
    (array : list SortChanged) (this : SortService) (w : W) :
  run env (onLocalSortChanged grid gridOptions dataView (Some array) this) w
  = let a1 :=
      env _ (DataViewSort dataView (localComparator (Some array))) w in
    let a2 := env _ (GridInvalidate grid) (snd a1) in
    let a3 := env _ (GridRender grid) (snd a2) in
    ([Ev (DataViewSort dataView (localComparator (Some array))) (fst a1);
      Ev (GridInvalidate grid) (fst a2);
      Ev (GridRender grid) (fst a3)],
     (Normal (fst a3), this), snd a3).
Proof.
  unfold onLocalSortChanged, bind. rewrite run_prog_bind.
  rewrite dataView_sort_array. cbv zeta. cbn [fst snd run prog_bind call app].
  reflexivity.
Qed.

(** The whole of [loadLocalPresets] when presets are configured. *)
Lemma run_loadLocalPresets {W : Type} (env : Env W) (grid : Grid)
    (gridOptions : option GridOption) (dataView : DataView)
    (columnDefinitions : list Column) (sorters : list CurrentSorter)
    (this : SortService) (w : W) :
  presetSorters gridOptions = Some sorters ->
  let matched := matchedPresets sorters columnDefinitions in
  let sortCols := map (fun cp => presetSortCol (fst cp) (snd cp)) matched in
  let this' :=
    with_sorters this (map (fun cp => presetSorter (fst cp) (snd cp)) matched) in
  run env (loadLocalPresets grid gridOptions dataView columnDefinitions this) w
  = match matched with
    | [] => ([], (Normal tt, this'), w)
    | _ :: _ =>
        let a1 :=
          env _ (DataViewSort dataView (localComparator (Some sortCols))) w in
        let a2 := env _ (GridInvalidate grid) (snd a1) in
        let a3 := env _ (GridRender grid) (snd a2) in
        let a4 := env _ (GridSetSortColumns grid sortCols) (snd a3) in
        ([Ev (DataViewSort dataView (localComparator (Some sortCols))) (fst a1);
          Ev (GridInvalidate grid) (fst a2);
          Ev (GridRender grid) (fst a3);
          Ev (GridSetSortColumns grid sortCols) (fst a4)],
         (Normal (fst a4), this'), snd a4)
    end.
Proof.
  intros Hs matched sortCols this'.
  unfold loadLocalPresets. rewrite Hs.
  rewrite run_bind, run_set_currentLocalSorters. cbv zeta. cbn [fst snd].
  rewrite run_bind, run_presetsForEach. cbv zeta.
  cbn [fst snd app _currentLocalSorters with_sorters].
  fold matched. fold sortCols.
  subst this' sortCols. destruct matched as [|cp matched']; [reflexivity|].
  cbn [map length]. rewrite Nat2Z.inj_succ.
  replace (0 <? Z.succ (Z.of_nat (length (map (fun cp => presetSortCol (fst cp) (snd cp)) matched')))) with true
    by (symmetry; apply Z.ltb_lt; lia).
  unfold when. rewrite run_bind, run_onLocalSortChanged_array.
  reflexivity.
Qed.

Lemma find_first {A : Type} (f : A -> bool) (l : list A) (p : A) :
  List.find f l = Some p ->
  exists earlier following,
    l = (earlier ++ p :: following)%list
    /\ Forall (fun q => f q = false) earlier
    /\ f p = true.
Proof.
  induction l as [|a l IH]; [discriminate|]. cbn [List.find].
  destruct (f a) eqn:Ha.
  - intros [= <-]. exists [], l. repeat split; [constructor | exact Ha].
  - intros Hp. destruct (IH Hp) as (earlier & following & -> & He & Hfp).
    exists (a :: earlier), following.
    repeat split; [constructor; assumption | exact Hfp].
Qed.

(** The two lists a load builds, entry by entry of the matched columns. *)
Lemma matchedPresets_closed_form {B : Type}
    (entry : Column -> CurrentSorter -> B) (missing : Column -> B)
    (sorters : list CurrentSorter) (columnDefinitions : list Column) :
  map (fun cp => entry (fst cp) (snd cp))
      (matchedPresets sorters columnDefinitions)
  = map (fun c =>
           match List.find
                   (fun p => bool_decide (cs_columnId p = id c)) sorters with
           | Some p => entry c p
           | None => missing c
           end)
        (List.filter
           (fun c => existsb (fun p => bool_decide (cs_columnId p = id c))
                       sorters)
           columnDefinitions).
Proof.
  induction columnDefinitions as [|c cols IH]; [reflexivity|].
  cbn [matchedPresets List.filter].
  pose proof (findPreset_hasPreset sorters c) as Hhas.
  unfold hasPreset, findPreset in Hhas. unfold findPreset at 1.
  rewrite Hhas.
  destruct (List.find (fun p => bool_decide (cs_columnId p = id c)) sorters)
    as [p|] eqn:Hp; cbn [map fst snd].
  - rewrite bool_decide_eq_true_2 by (eexists; reflexivity).
    cbn [map]. rewrite Hp, IH. reflexivity.
  - rewrite bool_decide_eq_false_2 by (intros [x Hx]; discriminate).
    exact IH.
Qed.

(** The uppercased direction the first preset of a column gives does not
    depend on the order of presets that agree on every column they
    share. *)
Lemma first_direction_Permutation (sorters sorters' : list CurrentSorter)
    (c : Column) (missing : string) :
  Permutation sorters sorters' ->
  (forall p q, In p sorters -> In q sorters ->
               cs_columnId p = cs_columnId q ->
               toUpperCase (cs_direction p) = toUpperCase (cs_direction q)) ->
  match List.find (fun p => bool_decide (cs_columnId p = id c)) sorters with
  | Some p => toUpperCase (cs_direction p)
  | None => missing
  end
  = match List.find (fun p => bool_decide (cs_columnId p = id c)) sorters' with
    | Some p => toUpperCase (cs_direction p)
    | None => missing
    end.
Proof.
  intros HP Hagree.
  destruct (List.find (fun p => bool_decide (cs_columnId p = id c)) sorters)
    as [p|] eqn:Hp;
  destruct (List.find (fun p => bool_decide (cs_columnId p = id c)) sorters')
    as [q|] eqn:Hq.
  - apply List.find_some in Hp as [Hpin Hpc].
    apply List.find_some in Hq as [Hqin Hqc].
    apply bool_decide_eq_true in Hpc, Hqc.
    apply Hagree; [exact Hpin | | congruence].
    apply (Permutation_in q (Permutation_sym HP)). exact Hqin.
  - exfalso. apply List.find_some in Hp as [Hpin Hpc].
    pose proof (List.find_none _ _ Hq p (Permutation_in p HP Hpin)) as Hno.
    simpl in Hno. congruence.
  - exfalso. apply List.find_some in Hq as [Hqin Hqc].
    pose proof (List.find_none _ _ Hp q
                  (Permutation_in q (Permutation_sym HP) Hqin)) as Hno.
    simpl in Hno. congruence.
  - reflexivity.
Qed.

(** C3.  With presets configured, [loadLocalPresets] builds its list of
    sort specifications and the canonical sorter state from the column
    definitions that some supplied preset names by [columnId === id], in
    the order of the column definitions and skipping the others.  The
    entry of a column takes its direction from a supplied preset with the
    column's id, the first in the list: the specification is ascending iff
    that direction uppercased is ASC, and the state keeps the uppercased
    direction and the id as a string.  Which columns appear, and in which
    order, does not depend on the order of the presets; nor does anything
    else of the result when presets naming the same column agree on the
    uppercased direction. *)
Theorem presets_reconciled_in_column_order {W : Type} (env : Env W)
    (grid : Grid) (gridOptions : option GridOption) (dataView : DataView)
    (columnDefinitions : list Column) (sorters : list CurrentSorter)
    (this : SortService) (w : W) :
  presetSorters gridOptions = Some sorters ->
  let load := loadLocalPresets grid gridOptions dataView columnDefinitions in
  let named (presets : list CurrentSorter) (c : Column) :=
    existsb (fun p => bool_decide (cs_columnId p = id c)) presets in
  let direction (presets : list CurrentSorter) (c : Column) :=
    match List.find (fun p => bool_decide (cs_columnId p = id c)) presets with
    | Some p => toUpperCase (cs_direction p)
    | None => ""
    end in
  let matched := List.filter (named sorters) columnDefinitions in
  let sortCols :=
    map (fun c => {| columnId := Some (id c);
                     sortAsc := bool_decide (direction sorters c = "ASC");
                     sortCol := Some c |}) matched in
  completion env load this w = Normal tt
  /\ _currentLocalSorters (after env load this w)
     = map (fun c => {| cs_columnId := IdString (id_to_string (id c));
                        cs_direction := direction sorters c |}) matched
  /\ (forall c, In c matched ->
        exists earlier p following,
          sorters = (earlier ++ p :: following)%list
          /\ Forall (fun q => cs_columnId q <> id c) earlier
          /\ cs_columnId p = id c
          /\ direction sorters c = toUpperCase (cs_direction p))
  /\ (forall c, In c columnDefinitions ->
        (In c matched <-> exists p, In p sorters /\ cs_columnId p = id c))
  /\ (matched <> [] ->
      exists compared,
        trace env load this w
        = [Ev (DataViewSort dataView (localComparator (Some sortCols)))
              compared;
           Ev (GridInvalidate grid) tt;
           Ev (GridRender grid) tt;
           Ev (GridSetSortColumns grid sortCols) tt])
  /\ (matched = [] -> trace env load this w = [])
  /\ (forall (gridOptions' : option GridOption)
             (sorters' : list CurrentSorter),
        presetSorters gridOptions' = Some sorters' ->
        Permutation sorters sorters' ->
        let load' :=
          loadLocalPresets grid gridOptions' dataView columnDefinitions in
        List.filter (named sorters') columnDefinitions = matched
        /\ map cs_columnId (_currentLocalSorters (after env load' this w))
           = map cs_columnId (_currentLocalSorters (after env load this w))
        /\ ((forall p q, In p sorters -> In q sorters ->
                         cs_columnId p = cs_columnId q ->
                         toUpperCase (cs_direction p)
                         = toUpperCase (cs_direction q)) ->
            _currentLocalSorters (after env load' this w)
            = _currentLocalSorters (after env load this w)
            /\ map (fun c =>
                      {| columnId := Some (id c);
                         sortAsc :=
                           bool_decide (direction sorters' c = "ASC");
                         sortCol := Some c |})
                   (List.filter (named sorters') columnDefinitions)
               = sortCols)).
Proof.
  intros Hs load named direction matched sortCols.
  pose proof (run_loadLocalPresets env grid gridOptions dataView
                columnDefinitions sorters this w Hs) as Hrun.
  cbv zeta in Hrun.
  assert (Hstate_of : forall presets,
    map (fun cp => presetSorter (fst cp) (snd cp))
        (matchedPresets presets columnDefinitions)
    = map (fun c => {| cs_columnId := IdString (id_to_string (id c));
                       cs_direction := direction presets c |})
          (List.filter (named presets) columnDefinitions)).
  { intros presets.
    rewrite (matchedPresets_closed_form presetSorter
               (fun c => {| cs_columnId := IdString (id_to_string (id c));
                            cs_direction := "" |})).
    apply map_ext. intros c. unfold direction.
    destruct (List.find _ presets); reflexivity. }
  assert (Hcols_of : forall presets,
    map (fun cp => presetSortCol (fst cp) (snd cp))
        (matchedPresets presets columnDefinitions)
    = map (fun c => {| columnId := Some (id c);
                       sortAsc := bool_decide (direction presets c = "ASC");
                       sortCol := Some c |})
          (List.filter (named presets) columnDefinitions)).
  { intros presets.
    rewrite (matchedPresets_closed_form presetSortCol
               (fun c => {| columnId := Some (id c);
                            sortAsc := bool_decide ("" = "ASC");
                            sortCol := Some c |})).
    apply map_ext. intros c. unfold direction.
    destruct (List.find _ presets); reflexivity. }
  assert (Hstate : _currentLocalSorters (after env load this w)
                   = map (fun cp => presetSorter (fst cp) (snd cp))
                         (matchedPresets sorters columnDefinitions)).
  { unfold after, load. rewrite Hrun.
    destruct (matchedPresets sorters columnDefinitions); reflexivity. }
  assert (Hmatched : map fst (matchedPresets sorters columnDefinitions)
                     = matched).
  { rewrite matchedPresets_columns. reflexivity. }
  split; [|split; [|split; [|split; [|split; [|split]]]]].
  - unfold completion, load. rewrite Hrun.
    destruct (matchedPresets sorters columnDefinitions); [reflexivity|].
    cbn [fst snd].
    match goal with |- Normal ?u = _ => destruct u end. reflexivity.
  - rewrite Hstate. apply Hstate_of.
  - intros c Hc. unfold matched in Hc.
    apply List.filter_In in Hc as [_ Hnamed]. unfold named in Hnamed.
    unfold direction.
    destruct (List.find (fun p => bool_decide (cs_columnId p = id c)) sorters)
      as [p|] eqn:Hp.
    + destruct (find_first _ _ _ Hp) as (earlier & following & Heq & He & Hpc).
      exists earlier, p, following.
      split; [exact Heq|]. split; [|split; [|reflexivity]].
      * eapply List.Forall_impl; [|exact He]. intros q Hq. simpl in Hq.
        apply bool_decide_eq_false in Hq. exact Hq.
      * apply bool_decide_eq_true in Hpc. exact Hpc.
    + exfalso. apply existsb_exists in Hnamed as (p & Hpin & Hpc).
      pose proof (List.find_none _ _ Hp p Hpin) as Hno. simpl in Hno.
      congruence.
  - intros c Hc. unfold matched, named. rewrite List.filter_In. split.
    + intros [_ Hex]. apply existsb_exists in Hex as (p & Hpin & Hpc).
      exists p. split; [exact Hpin|]. apply bool_decide_eq_true in Hpc.
      exact Hpc.
    + intros (p & Hpin & Hpc). split; [exact Hc|].
      apply existsb_exists. exists p. split; [exact Hpin|].
      apply bool_decide_eq_true. exact Hpc.
  - intros Hne. unfold trace, load. rewrite Hrun.
    destruct (matchedPresets sorters columnDefinitions) as [|cp l] eqn:Hm.
    + simpl in Hmatched. congruence.
    + cbn [fst snd]. eexists. rewrite <- Hm, Hcols_of. fold matched.
      fold sortCols. unit_answers. reflexivity.
  - intros He. unfold trace, load. rewrite Hrun.
    destruct (matchedPresets sorters columnDefinitions) as [|cp l].
    + reflexivity.
    + rewrite He in Hmatched. discriminate.
  - intros gridOptions' sorters' Hs' HP load'.
    assert (Hfilter : List.filter (named sorters') columnDefinitions
                      = matched).
    { unfold matched. apply List.filter_ext. intros c. symmetry.
      exact (hasPreset_Permutation sorters sorters' c HP). }
    split; [exact Hfilter|].
    pose proof (run_loadLocalPresets env grid gridOptions' dataView
                  columnDefinitions sorters' this w Hs') as Hrun'.
    cbv zeta in Hrun'.
    assert (Hstate' : _currentLocalSorters (after env load' this w)
                      = map (fun cp => presetSorter (fst cp) (snd cp))
                            (matchedPresets sorters' columnDefinitions)).
    { unfold after, load'. rewrite Hrun'.
      destruct (matchedPresets sorters' columnDefinitions); reflexivity. }
    rewrite Hstate, Hstate', !Hstate_of, Hfilter. fold matched. split.
    + rewrite !map_map. reflexivity.
    + intros Hagree. split.
      * apply map_ext. intros c. unfold direction.
        rewrite (first_direction_Permutation sorters sorters' c "" HP Hagree).
        reflexivity.
      * unfold sortCols. apply map_ext. intros c. unfold direction.
        rewrite (first_direction_Permutation sorters sorters' c "" HP Hagree).
        reflexivity.
Qed.

End Presets.

(** ** The local sort callback *)
Section LocalSort.
Context `{JsHost} {W : Type} (env : Env W).

Lemma run_gesture_forEach (array : list SortChanged) (this : SortService)
    (w : W) :
  run env
    (forEach (fun sortColumn =>
       match sortCol sortColumn with
       | Some c =>
           push_currentLocalSorter
             {| cs_columnId := id c;
                cs_direction :=
                  if sortAsc sortColumn
                  then SortDirection_ASC else SortDirection_DESC |}
       | None => ret tt
       end) array this) w
  = ([], (Normal tt,
          with_sorters this
            (_currentLocalSorters this ++ gestureSorters array)%list), w).
Proof.
  revert this. induction array as [|s array IH]; intros this.
  - simpl. rewrite app_nil_r. destruct this; reflexivity.
  - cbn [forEach gestureSorters]. rewrite run_bind.
    destruct (sortCol s) as [c|].
    + rewrite run_push_currentLocalSorter. cbv zeta. cbn [fst snd].
      rewrite IH. cbn [app fst snd _currentLocalSorters with_sorters].
      rewrite <- ?app_assoc. reflexivity.
    + rewrite run_ret. cbv zeta. cbn [fst snd]. rewrite IH. reflexivity.
Qed.

Lemma firstThrown_after {A : Type} (l : list (Completion A))
    (this : SortService) (w : W) :
  snd (snd (fst (run env (firstThrown l this) w))) = this.
Proof.
  induction l as [|[a|e] l IH]; simpl; [reflexivity | exact IH | reflexivity].
Qed.

Lemma after_call {R : Type} (c : Call R) (this : SortService) (w : W) :
  after env (call c) this w = this.
Proof. reflexivity. Qed.

Lemma after_dataView_sort (dataView : DataView)
    (comparer : gmap string Value -> gmap string Value -> Completion Z)
    (this : SortService) (w : W) :
  after env (dataView_sort dataView comparer) this w = this.
Proof.
  unfold dataView_sort. rewrite after_bind.
  unfold completion, after, world_after. rewrite !run_call. cbn [fst snd].
  apply firstThrown_after.
Qed.

Lemma after_onLocalSortChanged (grid : Grid) (gridOptions : option GridOption)
    (dataView : DataView) (sortColumns : option (list SortChanged))
    (this : SortService) (w : W) :
  after env (onLocalSortChanged grid gridOptions dataView sortColumns) this w
  = this.
Proof.
  unfold onLocalSortChanged. rewrite after_bind.
  destruct (completion env _ this w).
  - rewrite after_bind. rewrite after_dataView_sort.
    unfold completion. rewrite run_call. cbn [fst snd]. reflexivity.
  - apply after_dataView_sort.
Qed.

Lemma after_emitSortChanged (sender : Sender) (this : SortService) (w : W) :
  after env (emitSortChanged sender) this w = this.
Proof.
  unfold emitSortChanged, after. rewrite run_bind, run_get_this.
  cbv zeta. cbn [fst snd].
  destruct sender; [reflexivity|].
  destruct (storedBackendServiceApi this) as [api|]; [|reflexivity].
  destruct (service api) as [svc|]; [|reflexivity].
  destruct (getCurrentSorters svc); reflexivity.
Qed.

(** The canonical state the callback leaves, whether or not the sort that
    follows throws. *)
Lemma after_localOnSort (grid : Grid) (gridOptions : option GridOption)
    (dataView : DataView) (e : Value) (args : SortArgs) (this : SortService)
    (w : W) :
  after env (localOnSort grid gridOptions dataView e (Some args)) this w
  = with_sorters this
      (gestureSorters (default [] (gestureSortColumns args))).
Proof.
  unfold localOnSort.
  rewrite after_bind. unfold completion at 1, after at 2, world_after at 1.
  rewrite run_set_currentLocalSorters. cbn [fst snd].
  rewrite after_bind.
  assert (Hloop :
    run env
      (match gestureSortColumns args with
       | Some array =>
           forEach (fun sortColumn =>
             match sortCol sortColumn with
             | Some c =>
                 push_currentLocalSorter
                   {| cs_columnId := id c;
                      cs_direction :=
                        if sortAsc sortColumn
                        then SortDirection_ASC else SortDirection_DESC |}
             | None => ret tt
             end) array
       | None => ret tt
       end (with_sorters this [])) w
    = ([], (Normal tt,
            with_sorters this
              (gestureSorters (default [] (gestureSortColumns args)))), w)).
  { destruct (gestureSortColumns args) as [array|].
    - rewrite run_gesture_forEach. reflexivity.
    - reflexivity. }
  unfold completion at 1, after at 2, world_after at 1.
  rewrite Hloop. cbn [fst snd].
  rewrite after_bind.
  destruct (completion env (onLocalSortChanged _ _ _ _) _ w).
  - rewrite after_emitSortChanged. apply after_onLocalSortChanged.
  - apply after_onLocalSortChanged.
Qed.

Lemma gestureSorters_present (array : list SortChanged) :
  Forall2
    (fun pair sorter =>
       exists c, sortCol pair = Some c
                 /\ cs_columnId sorter = id c
                 /\ cs_direction sorter
                    = if sortAsc pair
                      then SortDirection_ASC else SortDirection_DESC)
    (List.filter columnPresent array) (gestureSorters array).
Proof.
  induction array as [|s array IH]; simpl; [constructor|].
  unfold columnPresent. destruct (sortCol s) as [c|] eqn:Hc.
  - constructor; [|exact IH]. exists c. rewrite Hc. auto.
  - exact IH.
Qed.

Lemma gestureSorters_flat_map (array : list SortChanged) :
  gestureSorters array
  = flat_map
      (fun pair =>
         match sortCol pair with
         | Some c =>
             [ {| cs_columnId := id c;
                  cs_direction := if sortAsc pair then "ASC" else "DESC" |} ]
         | None => []
         end) array.
Proof.
  induction array as [|s array IH]; [reflexivity|].
  cbn [gestureSorters flat_map]. rewrite IH.
  destruct (sortCol s); reflexivity.
Qed.

(** C5.  The callback subscribed to [grid.onSort] by [attachLocalOnSort].
    The pairs of a gesture are those of [args.sortCols] when
    [args.multiColumnSort] is set, and the one pair of [args.sortAsc] and
    [args.sortCol] otherwise; a single-column gesture runs as the
    multi-column gesture holding its one pair.  Whatever the canonical
    state was before, afterwards it holds one entry per pair whose column
    is present, in gesture order, with the column's id and the direction
    ASC for an ascending pair and DESC otherwise. *)
Theorem local_gesture_sets_canonical_state (grid : Grid)
    (gridOptions : option GridOption) (dataView : DataView) (e : Value)
    (args : SortArgs) (this : SortService) (w : W) :
  let single := {| columnId := None;
                   sortAsc := args_sortAsc args;
                   sortCol := args_sortCol args |} in
  let pairs :=
    if args_multiColumnSort args
    then match args_sortCols args with
         | Some array => array
         | None => []
         end
    else [single] in
  let present (pair : SortChanged) :=
    match sortCol pair with
    | Some _ => true
    | None => false
    end in
  let m := localOnSort grid gridOptions dataView e (Some args) in
  (args_multiColumnSort args = false ->
   gestureSortColumns args = Some [single]
   /\ m = localOnSort grid gridOptions dataView e
            (Some {| args_grid := args_grid args;
                     args_multiColumnSort := true;
                     args_sortCols := Some [single];
                     args_sortAsc := args_sortAsc args;
                     args_sortCol := args_sortCol args |}))
  /\ (args_multiColumnSort args = true ->
      gestureSortColumns args = args_sortCols args)
  /\ _currentLocalSorters (after env m this w)
     = flat_map
         (fun pair =>
            match sortCol pair with
            | Some c =>
                [ {| cs_columnId := id c;
                     cs_direction :=
                       if sortAsc pair then "ASC" else "DESC" |} ]
            | None => []
            end) pairs
  /\ Forall2
       (fun pair sorter =>
          exists c, sortCol pair = Some c
                    /\ cs_columnId sorter = id c
                    /\ cs_direction sorter
                       = if sortAsc pair then "ASC" else "DESC")
       (List.filter present pairs)
       (_currentLocalSorters (after env m this w)).
Proof.
  intros single pairs present m.
  assert (Hpairs : default [] (gestureSortColumns args) = pairs).
  { unfold gestureSortColumns, pairs.
    destruct (args_multiColumnSort args); [|reflexivity].
    destruct (args_sortCols args); reflexivity. }
  split; [|split; [|split]].
  - intros Hsingle. unfold m, localOnSort, gestureSortColumns.
    rewrite Hsingle. split; reflexivity.
  - intros Hmulti. unfold gestureSortColumns. rewrite Hmulti. reflexivity.
  - unfold m. rewrite after_localOnSort, Hpairs.
    cbn [_currentLocalSorters with_sorters]. apply gestureSorters_flat_map.
  - unfold m. rewrite after_localOnSort, Hpairs.
    cbn [_currentLocalSorters with_sorters].
    exact (gestureSorters_present pairs).
Qed.

(** A gesture that carries an array: the view is sorted, invalidated and
    rendered, and the canonical state is emitted. *)
Lemma run_localOnSort_array (grid : Grid) (gridOptions : option GridOption)
    (dataView : DataView) (e : Value) (args : SortArgs)
    (array : list SortChanged) (this : SortService) (w : W) :
  gestureSortColumns args = Some array ->
  run env (localOnSort grid gridOptions dataView e (Some args) this) w
  = let a1 :=
      env _ (DataViewSort dataView (localComparator (Some array))) w in
    let a2 := env _ (GridInvalidate grid) (snd a1) in
    let a3 := env _ (GridRender grid) (snd a2) in
    let a4 := env _ (SubjectNext (gestureSorters array)) (snd a3) in
    ([Ev (DataViewSort dataView (localComparator (Some array))) (fst a1);
      Ev (GridInvalidate grid) (fst a2);
      Ev (GridRender grid) (fst a3);
      Ev (SubjectNext (gestureSorters array)) (fst a4)],
     (Normal (fst a4), with_sorters this (gestureSorters array)),
     snd a4).
Proof.
  intros Harray. unfold localOnSort. rewrite Harray.
  rewrite run_bind, run_set_currentLocalSorters. cbv zeta. cbn [fst snd].
  rewrite run_bind, run_gesture_forEach. cbv zeta.
  cbn [fst snd app _currentLocalSorters with_sorters].
  rewrite run_bind, run_onLocalSortChanged_array. cbv zeta. cbn [fst snd].
  reflexivity.
Qed.

(** With an array in which no column is present the callback returns, the
    canonical state is empty, the comparator answers 0 on all rows, and the
    grid is invalidated and rendered. *)
Lemma local_gesture_no_column_present (grid : Grid)
    (gridOptions : option GridOption) (dataView : DataView) (e : Value)
    (args : SortArgs) (array : list SortChanged) (this : SortService)
    (w : W) :
  gestureSortColumns args = Some array ->
  Forall unresolved array ->
  let m := localOnSort grid gridOptions dataView e (Some args) in
  completion env m this w = Normal tt
  /\ _currentLocalSorters (after env m this w) = []
  /\ (forall dataRow1 dataRow2,
        localComparator (Some array) dataRow1 dataRow2 = Normal 0)
  /\ In (Ev (GridInvalidate grid) tt) (trace env m this w)
  /\ In (Ev (GridRender grid) tt) (trace env m this w).
Proof.
  intros Harray Hnone m.
  assert (Hs : gestureSorters array = []).
  { clear Harray. induction Hnone as [|s l Hs _ IH]; simpl; [reflexivity|].
    unfold unresolved in Hs. rewrite Hs. exact IH. }
  assert (H0 : forall r1 r2, compareRows array r1 r2 = 0).
  { intros r1 r2. apply compareRows_unresolved. exact Hnone. }
  unfold completion, after, trace, m.
  rewrite (run_localOnSort_array _ _ _ _ _ array) by assumption.
  cbv zeta. cbn [fst snd]. rewrite Hs. repeat split.
  - match goal with |- Normal ?u = _ => destruct u end. reflexivity.
  - intros r1 r2. simpl. rewrite H0. reflexivity.
  - right. left. match goal with |- Ev _ ?u = _ => destruct u end.
    reflexivity.
  - right. right. left. match goal with |- Ev _ ?u = _ => destruct u end.
    reflexivity.
Qed.

End LocalSort.

(** C8.  A multi-column gesture whose [sortCols] is not set, on a view that
    compares two rows: the canonical state is reset to empty, but the
    comparator throws instead of answering 0, the callback ends with that
    [TypeError], and the grid is neither invalidated nor rendered nor is
    the change emitted. *)
Theorem local_gesture_without_sortCols_throws :
  let m := localOnSort (demo_grid None) None demo_dataView VUndefined
             (Some demo_gestureWithoutSortCols) in
  gestureSortColumns demo_gestureWithoutSortCols = None
  /\ _currentLocalSorters (after demo_env m demo_sorted tt) = []
  /\ localComparator None demo_row1 demo_row2
     = Thrown (TypeError "Cannot read property 'length' of undefined")
  /\ completion demo_env m demo_sorted tt
     = Thrown (TypeError "Cannot read property 'length' of undefined")
  /\ existsb is_invalidate (trace demo_env m demo_sorted tt) = false
  /\ existsb is_render (trace demo_env m demo_sorted tt) = false
  /\ existsb is_emission (trace demo_env m demo_sorted tt) = false.
Proof. cbv zeta. repeat split; vm_compute; reflexivity. Qed.

(** ** Loading presets when the row count changes *)
Section RowCount.
Context `{JsHost} {W : Type} (env : Env W).

Lemma run_loadLocalPresets_none (grid : Grid)
    (gridOptions : option GridOption) (dataView : DataView)
    (columnDefinitions : list Column) (this : SortService) (w : W) :
  presetSorters gridOptions = None ->
  run env (loadLocalPresets grid gridOptions dataView columnDefinitions this) w
  = ([], (Normal tt, with_sorters this []), w).
Proof.
  intros Hs. unfold loadLocalPresets. rewrite Hs.
  rewrite run_bind, run_set_currentLocalSorters. reflexivity.
Qed.

(** [loadLocalPresets] returns, and leaves no call mark of its own. *)
Lemma loadLocalPresets_returns (grid : Grid)
    (gridOptions : option GridOption) (dataView : DataView)
    (columnDefinitions : list Column) (this : SortService) (w : W) :
  let load := loadLocalPresets grid gridOptions dataView columnDefinitions in
  completion env load this w = Normal tt
  /\ List.filter is_loadLocalPresets (trace env load this w) = [].
Proof.
  intros load. unfold completion, trace, load.
  destruct (presetSorters gridOptions) as [sorters|] eqn:Hs.
  - rewrite (run_loadLocalPresets env _ _ _ _ sorters) by assumption.
    destruct (matchedPresets sorters columnDefinitions); cbn [fst snd].
    + split; reflexivity.
    + split; [|reflexivity].
      match goal with |- Normal ?u = _ => destruct u end. reflexivity.
  - rewrite run_loadLocalPresets_none by assumption. split; reflexivity.
Qed.

(** One report: the callback calls [loadLocalPresets], once, exactly when
    the reported current count is positive. *)
Lemma rowCount_report (grid : Grid) (gridOptions : option GridOption)
    (dataView : DataView) (columnDefinitions : list Column) (e : Value)
    (report : RowCountArgs) (this : SortService) (w : W) :
  let m := localOnRowCountChanged grid gridOptions dataView columnDefinitions
             e report in
  completion env m this w = Normal tt
  /\ length (List.filter is_loadLocalPresets (trace env m this w))
     = if 0 <? current report then 1%nat else 0%nat.
Proof.
  intros m. unfold m, localOnRowCountChanged, when.
  destruct (0 <? current report).
  - rewrite completion_bind, trace_bind.
    unfold completion at 1 3, trace at 1. rewrite run_call. cbn [fst snd].
    destruct (loadLocalPresets_returns grid gridOptions dataView
                columnDefinitions (after env (call CallsLoadLocalPresets) this w)
                (world_after env (call CallsLoadLocalPresets) this w))
      as [Hc Ht].
    split; [exact Hc|].
    cbn [app List.filter is_loadLocalPresets length]. rewrite Ht.
    reflexivity.
  - split; reflexivity.
Qed.

(** C1.  Over any sequence of row-count reports of the data view the
    callback of [attachLocalOnSort] calls [loadLocalPresets] once for each
    report whose current count is positive and for no other: a report is
    answered by the call iff its current count is positive, whatever the
    previous count was. *)
Theorem presets_loaded_on_every_positive_row_count (grid : Grid)
    (gridOptions : option GridOption) (dataView : DataView)
    (columnDefinitions : list Column) (e : Value)
    (reports : list RowCountArgs) (this : SortService) (w : W) :
  let onReport :=
    localOnRowCountChanged grid gridOptions dataView columnDefinitions e in
  length (List.filter is_loadLocalPresets
            (trace env (forEach onReport reports) this w))
  = length (List.filter (fun report => 0 <? current report) reports)
  /\ forall report : RowCountArgs,
       existsb is_loadLocalPresets (trace env (onReport report) this w) = true
       <-> 0 < current report.
Proof.
  intros onReport. split.
  - revert this w. induction reports as [|r reports IH]; intros this w.
    + reflexivity.
    + cbn [forEach]. rewrite trace_bind.
      destruct (rowCount_report grid gridOptions dataView columnDefinitions
                  e r this w) as [Hc Hn].
      fold onReport in Hc, Hn. rewrite Hc.
      rewrite List.filter_app, length_app, Hn, IH.
      cbn [List.filter]. destruct (0 <? current r); reflexivity.
  - intros report.
    destruct (rowCount_report grid gridOptions dataView columnDefinitions
                e report this w) as [_ Hn].
    fold onReport in Hn.
    rewrite <- Z.ltb_lt.
    destruct (0 <? current report).
    + split; [reflexivity|]. intros _.
      destruct (List.filter is_loadLocalPresets (trace env (onReport report) this w))
        as [|x l] eqn:Hf; [discriminate|].
      assert (Hin : In x (List.filter is_loadLocalPresets
                            (trace env (onReport report) this w)))
        by (rewrite Hf; left; reflexivity).
      apply List.filter_In in Hin. apply existsb_exists. exists x. exact Hin.
    + split; [|discriminate]. intros Hex.
      apply existsb_exists in Hex as [x Hx].
      apply List.filter_In in Hx.
      destruct (List.filter is_loadLocalPresets (trace env (onReport report) this w));
        [destruct Hx | discriminate].
Qed.

End RowCount.

(** C1, as first stated, fails: the row count goes from 3 to 5, with
    presets configured, and [loadLocalPresets] is called although nothing
    went from zero rows to some. *)
Lemma presets_loaded_on_positive_to_positive :
  let report := {| previous := 3; current := 5 |} in
  let m := localOnRowCountChanged (demo_grid (Some demo_presetOptions))
             (Some demo_presetOptions) demo_dataView demo_columns
             VUndefined report in
  ~ (existsb is_loadLocalPresets (trace demo_env m new_SortService tt) = true
     <-> zeroToPositive report = true).
Proof.
  cbv zeta. intros [Hclaim _].
  assert (Hloaded : existsb is_loadLocalPresets
            (trace demo_env
               (localOnRowCountChanged (demo_grid (Some demo_presetOptions))
                  (Some demo_presetOptions) demo_dataView demo_columns
                  VUndefined {| previous := 3; current := 5 |})
               new_SortService tt) = true)
    by (vm_compute; reflexivity).
  specialize (Hclaim Hloaded). vm_compute in Hclaim. discriminate.
Qed.

(** ** The backend sort callback *)
Section Backend.
Context `{JsHost} {W : Type} (env : Env W).

Lemma backend_trace_increasing (event : Value) (args : option SortArgs)
    (this : SortService) (w : W) :
  increasing
    (map phase (trace env (attachBackendOnSortSubscribe event args) this w))
  = true.
Proof.
  unfold trace, attachBackendOnSortSubscribe, emitSortChanged, when,
    getCurrentLocalSorters.
  destruct (populatedArgs args) as [[a g]|]; [|reflexivity].
  destruct (backendApiOf (gridOptionsOf g)) as [api|]; [|reflexivity].
  destruct (process api); [|reflexivity].
  destruct (service api) as [svc|]; [|reflexivity].
  unfold bind, call, ret, throw, get_this.
  destruct (preProcess api); split_cases; reflexivity.
Qed.

Lemma increasing_head (a : nat) (l : list nat) (j y : nat) :
  increasing (a :: l) = true -> l !! j = Some y -> (a < y)%nat.
Proof.
  revert a j. induction l as [|b l IH]; intros a j Hinc Hj.
  - destruct j; discriminate.
  - cbn [increasing] in Hinc. apply andb_prop in Hinc as [Hab Hrest].
    apply Nat.ltb_lt in Hab.
    destruct j as [|j]; simpl in Hj.
    + injection Hj as <-. exact Hab.
    + specialize (IH b j Hrest Hj). lia.
Qed.

Lemma increasing_tail (a : nat) (l : list nat) :
  increasing (a :: l) = true -> increasing l = true.
Proof.
  destruct l as [|b l]; [reflexivity|]. cbn [increasing].
  intros Hinc. apply andb_prop in Hinc as [_ Hrest]. exact Hrest.
Qed.

Lemma increasing_positions (l : list nat) (i j x y : nat) :
  increasing l = true ->
  l !! i = Some x -> l !! j = Some y -> (x < y)%nat -> (i < j)%nat.
Proof.
  revert i j. induction l as [|a l IH]; intros i j Hinc Hi Hj Hxy.
  - destruct i; discriminate.
  - destruct i as [|i], j as [|j]; simpl in Hi, Hj.
    + injection Hi as <-. injection Hj as <-. lia.
    + lia.
    + injection Hj as <-.
      pose proof (increasing_head _ _ _ _ Hinc Hi). lia.
    + apply increasing_tail in Hinc.
      specialize (IH i j Hinc Hi Hj Hxy). lia.
Qed.

Lemma strictly_before_phases (P Q : Event -> bool) (t : list Event) :
  increasing (map phase t) = true ->
  (forall e e', P e = true -> Q e' = true -> (phase e < phase e')%nat) ->
  strictly_before P Q t.
Proof.
  intros Hinc HPQ i j e e' Hi Hj HP HQ.
  apply (increasing_positions (map phase t) i j (phase e) (phase e')).
  - exact Hinc.
  - rewrite list_lookup_fmap, Hi. reflexivity.
  - rewrite list_lookup_fmap, Hj. reflexivity.
  - apply HPQ; assumption.
Qed.

(** What [emitSortChanged('remote')] does, by the stored grid options. *)
Lemma run_emit_remote (this : SortService) (w : W) :
  run env (emitSortChanged SenderRemote this) w
  = match storedBackendServiceApi this with
    | None => ([], (Normal tt, this), w)
    | Some backendServiceApi =>
        let asked :=
          match service backendServiceApi with
          | Some backendService =>
              if getCurrentSorters backendService
              then
                let answer :=
                  env _ (ServiceGetCurrentSorters backendService) w in
                ([Ev (ServiceGetCurrentSorters backendService) (fst answer)],
                 fst answer, snd answer)
              else ([], [], w)
          | None => ([], [], w)
          end in
        let sent := env _ (SubjectNext (snd (fst asked))) (snd asked) in
        (fst (fst asked) ++ [Ev (SubjectNext (snd (fst asked))) (fst sent)],
         (Normal (fst sent), this), snd sent)%list
    end.
Proof.
  unfold emitSortChanged. rewrite run_bind, run_get_this.
  cbv zeta. cbn [fst snd app].
  destruct (storedBackendServiceApi this) as [api|]; [|reflexivity].
  destruct (service api) as [svc|]; [|reflexivity].
  destruct (getCurrentSorters svc); reflexivity.
Qed.

Lemma run_emit_local (this : SortService) (w : W) :
  run env (emitSortChanged SenderLocal this) w
  = let sent := env _ (SubjectNext (_currentLocalSorters this)) w in
    ([Ev (SubjectNext (_currentLocalSorters this)) (fst sent)],
     (Normal (fst sent), this), snd sent).
Proof. reflexivity. Qed.

Lemma emit_remote_returns (this : SortService) (w : W) :
  snd (fst (run env (emitSortChanged SenderRemote this) w))
  = (Normal tt, this).
Proof.
  rewrite run_emit_remote.
  destruct (storedBackendServiceApi this) as [api|]; [|reflexivity].
  cbv zeta. cbn [fst snd].
  match goal with |- (Normal ?u, _) = _ => destruct u end. reflexivity.
Qed.

(** One run of the callback on a populated gesture and a valid contract,
    as the sequence of its calls. *)
Lemma run_backend_valid (event : Value) (a : SortArgs) (g : Grid)
    (api : BackendServiceApi) (svc : BackendService) (this : SortService)
    (w : W) :
  args_grid a = Some g ->
  backendApiOf (gridOptionsOf g) = Some api ->
  process api = true ->
  service api = Some svc ->
  let r0 := run env (when (preProcess api) (call (PreProcess api)) this) w in
  let a1 := env _ (ServiceOnSortChanged svc event a) (snd r0) in
  let r2 := run env (emitSortChanged SenderRemote this) (snd a1) in
  let a3 := env _ (Process api (fst a1)) (snd r2) in
  let a4 := env _ (Await (fst a3)) (snd a3) in
  let r5 :=
    run env
      (match fst a4 with
       | Rejected reason => throw (Rejection reason)
       | Fulfilled processResult =>
           when (truthy processResult && internalPostProcess api)
             (call (InternalPostProcess api processResult)) ;;
           when (postProcess api) (call (PostProcess api processResult))
       end this) (snd a4) in
  run env (attachBackendOnSortSubscribe event (Some a) this) w
  = (fst (fst r0)
     ++ Ev (ServiceOnSortChanged svc event a) (fst a1)
        :: fst (fst r2)
     ++ Ev (Process api (fst a1)) (fst a3)
        :: Ev (Await (fst a3)) (fst a4)
        :: fst (fst r5),
     snd (fst r5), snd r5)%list.
Proof.
  intros Hg Hapi Hprocess Hsvc.
  unfold attachBackendOnSortSubscribe, populatedArgs.
  rewrite Hg, Hapi, Hprocess, Hsvc.
  rewrite run_bind, run_when_call.
  destruct (preProcess api); cbv zeta; cbn [fst snd].
  - rewrite run_bind, run_call. cbv zeta. cbn [fst snd].
    rewrite run_bind.
    rewrite (surjective_pairing (run env (emitSortChanged SenderRemote this) _)).
    rewrite (surjective_pairing (fst (run env (emitSortChanged SenderRemote this) _))).
    rewrite emit_remote_returns. cbv zeta. cbn [fst snd].
    rewrite run_bind, run_call. cbv zeta. cbn [fst snd].
    rewrite run_bind, run_call. cbv zeta. cbn [fst snd app].
    rewrite <- ?app_assoc. reflexivity.
  - rewrite run_bind, run_call. cbv zeta. cbn [fst snd].
    rewrite run_bind.
    rewrite (surjective_pairing (run env (emitSortChanged SenderRemote this) _)).
    rewrite (surjective_pairing (fst (run env (emitSortChanged SenderRemote this) _))).
    rewrite emit_remote_returns. cbv zeta. cbn [fst snd].
    rewrite run_bind, run_call. cbv zeta. cbn [fst snd].
    rewrite run_bind, run_call. cbv zeta. cbn [fst snd app].
    rewrite <- ?app_assoc. reflexivity.
Qed.

(** C4.  One run of [attachBackendOnSortSubscribe]: [preProcess] comes
    before the emission on [onSortChanged], the emission before the call
    of [process] and before the wait for its result, and after the wait
    [internalPostProcess] comes before [postProcess]; and with a valid
    contract the configured calls do occur. *)
Theorem backend_calls_in_order (event : Value) (args : option SortArgs)
    (this : SortService) (w : W) :
  let t := trace env (attachBackendOnSortSubscribe event args) this w in
  (strictly_before is_preProcess is_emission t
   /\ strictly_before is_emission is_process t
   /\ strictly_before is_emission is_await t
   /\ strictly_before is_process is_await t
   /\ strictly_before is_await is_internalPostProcess t
   /\ strictly_before is_await is_postProcess t
   /\ strictly_before is_internalPostProcess is_postProcess t)
  /\ forall a g backendApi backendService,
       args = Some a ->
       args_grid a = Some g ->
       backendApiOf (gridOptionsOf g) = Some backendApi ->
       process backendApi = true ->
       service backendApi = Some backendService ->
       (preProcess backendApi = true -> In (Ev (PreProcess backendApi) tt) t)
       /\ (storedBackendServiceApi this <> None ->
           exists sorters, In (Ev (SubjectNext sorters) tt) t)
       /\ exists query promise settled,
            In (Ev (Process backendApi query) promise) t
            /\ In (Ev (Await promise) settled) t
            /\ forall result,
                 settled = Fulfilled result ->
                 (truthy result = true ->
                  internalPostProcess backendApi = true ->
                  In (Ev (InternalPostProcess backendApi result) tt) t)
                 /\ (postProcess backendApi = true ->
                     In (Ev (PostProcess backendApi result) tt) t).
Proof.
  intros t. split.
  - pose proof (backend_trace_increasing event args this w) as Hinc.
    fold t in Hinc.
    repeat split; (apply strictly_before_phases; [exact Hinc | by_phases]).
  - intros a g api svc -> Hg Hapi Hprocess Hsvc. subst t. unfold trace.
    rewrite (run_backend_valid event a g api svc this w Hg Hapi Hprocess Hsvc).
    cbv zeta. cbn [fst snd]. split; [|split].
    + intros Hpre. rewrite run_when_call, Hpre. cbn [fst snd]. find_in.
    + intros Hst. rewrite (run_emit_remote this).
      destruct (storedBackendServiceApi this) as [api'|]; [|congruence].
      cbv zeta. cbn [fst snd]. eexists. find_in.
    + match goal with
      | |- context [Ev (Await ?p) ?s] =>
          match goal with
          | |- context [Ev (Process api ?q) p] => exists q, p, s
          end
      end.
      split; [find_in | split; [find_in|]].
      intros result ->. rewrite run_bind, !run_when_call.
      split.
      * intros -> ->. cbv zeta. cbn [andb fst snd].
        destruct (postProcess api); cbn [fst snd]; find_in.
      * intros ->.
        destruct (truthy result && internalPostProcess api);
          cbv zeta; cbn [fst snd]; find_in.
Qed.

(** C6.  [attachBackendOnSortSubscribe] throws when [args] or [args.grid]
    is missing, and throws when the grid options give no backend contract
    or one without [process] or without [service]; in both cases no call
    at all has been made, so neither a hook nor an emission, and the fields
    of the service are as before. *)
Theorem backend_rejects_without_effect (event : Value)
    (args : option SortArgs) (this : SortService) (w : W) :
  ((args = None \/ exists a, args = Some a /\ args_grid a = None) ->
   run env (attachBackendOnSortSubscribe event args this) w
   = ([], (Thrown (Error argsNotPopulated), this), w))
  /\ (forall a g,
        args = Some a ->
        args_grid a = Some g ->
        (backendApiOf (gridOptionsOf g) = None
         \/ exists backendApi,
              backendApiOf (gridOptionsOf g) = Some backendApi
              /\ (process backendApi = false
                  \/ service backendApi = None)) ->
        run env (attachBackendOnSortSubscribe event args this) w
        = ([], (Thrown (Error backendApiRequired), this), w)).
Proof.
  split.
  - intros [-> | (a & -> & Hg)]; unfold attachBackendOnSortSubscribe; simpl.
    + reflexivity.
    + rewrite Hg. reflexivity.
  - intros a g -> Hg Hbad. unfold attachBackendOnSortSubscribe; simpl.
    rewrite Hg.
    destruct Hbad as [-> | (api & -> & [Hp | Hs])].
    + reflexivity.
    + rewrite Hp. reflexivity.
    + rewrite Hs. destruct (process api); reflexivity.
Qed.

Lemma emitted_app (t1 t2 : list Event) :
  emitted (t1 ++ t2) = (emitted t1 ++ emitted t2)%list.
Proof.
  induction t1 as [|[R c r] t1 IH]; [reflexivity|].
  destruct c; simpl; rewrite ?IH; reflexivity.
Qed.

Lemma emitted_after_await (api : BackendServiceApi) (settled : Settled)
    (this : SortService) (w : W) :
  emitted
    (fst (fst (run env
       (match settled with
        | Rejected reason => throw (Rejection reason)
        | Fulfilled processResult =>
            when (truthy processResult && internalPostProcess api)
              (call (InternalPostProcess api processResult)) ;;
            when (postProcess api) (call (PostProcess api processResult))
        end this) w)))
  = [].
Proof.
  destruct settled as [result|reason]; [|reflexivity].
  rewrite run_bind, !run_when_call.
  destruct (truthy result && internalPostProcess api);
    cbv zeta; cbn [fst snd]; rewrite ?run_when_call;
    destruct (postProcess api); reflexivity.
Qed.

(** The emissions of a run on a populated gesture and a valid contract
    are those of [emitSortChanged('remote')]. *)
Lemma emitted_backend_valid (event : Value) (a : SortArgs) (g : Grid)
    (api : BackendServiceApi) (svc : BackendService) (this : SortService)
    (w : W) :
  args_grid a = Some g ->
  backendApiOf (gridOptionsOf g) = Some api ->
  process api = true ->
  service api = Some svc ->
  let w0 :=
    snd (run env (when (preProcess api) (call (PreProcess api)) this) w) in
  let w1 := snd (env _ (ServiceOnSortChanged svc event a) w0) in
  emitted (trace env (attachBackendOnSortSubscribe event (Some a)) this w)
  = emitted (trace env (emitSortChanged SenderRemote) this w1).
Proof.
  intros Hg Hapi Hprocess Hsvc. unfold trace.
  rewrite (run_backend_valid event a g api svc this w Hg Hapi Hprocess Hsvc).
  cbv zeta. cbn [fst snd].
  rewrite emitted_app. cbn [emitted]. rewrite emitted_app. cbn [emitted].
  rewrite emitted_after_await, app_nil_r.
  rewrite run_when_call.
  destruct (preProcess api); reflexivity.
Qed.

(** C7, as amended.  An emission made for the sender 'remote' carries
    the answer of [getCurrentSorters] of the service of the stored
    [backendServiceApi], asked at that moment, when the service has the
    operation, and the empty list, with nothing asked, when the service or
    the operation is missing; it carries nothing of the gesture.  An
    emission made for 'local' carries the canonical local state.  So it is
    in the two callbacks. *)
Theorem emissions_carry_current_sorters (this : SortService) (w : W) :
  (forall backendApi backendService,
     storedBackendServiceApi this = Some backendApi ->
     service backendApi = Some backendService ->
     getCurrentSorters backendService = true ->
     let answer := fst (env _ (ServiceGetCurrentSorters backendService) w) in
     trace env (emitSortChanged SenderRemote) this w
     = [Ev (ServiceGetCurrentSorters backendService) answer;
        Ev (SubjectNext answer) tt]
     /\ forall event a g contract contractService,
          args_grid a = Some g ->
          backendApiOf (gridOptionsOf g) = Some contract ->
          process contract = true ->
          service contract = Some contractService ->
          let t :=
            trace env (attachBackendOnSortSubscribe event (Some a)) this w in
          exists sorters,
            In (Ev (ServiceGetCurrentSorters backendService) sorters) t
            /\ emitted t = [sorters])
  /\ emitted (trace env (emitSortChanged SenderLocal) this w)
     = [_currentLocalSorters this]
  /\ (forall grid gridOptions dataView e args array,
        gestureSortColumns args = Some array ->
        let m := localOnSort grid gridOptions dataView e (Some args) in
        emitted (trace env m this w)
        = [_currentLocalSorters (after env m this w)])
  /\ (forall backendApi,
        storedBackendServiceApi this = Some backendApi ->
        (service backendApi = None
         \/ exists backendService,
              service backendApi = Some backendService
              /\ getCurrentSorters backendService = false) ->
        trace env (emitSortChanged SenderRemote) this w
        = [Ev (SubjectNext []) tt])
  /\ (forall sorters,
        In sorters (emitted (trace env (emitSortChanged SenderRemote) this w)) ->
        exists backendApi,
          storedBackendServiceApi this = Some backendApi
          /\ ((exists backendService,
                 service backendApi = Some backendService
                 /\ getCurrentSorters backendService = true
                 /\ In (Ev (ServiceGetCurrentSorters backendService) sorters)
                       (trace env (emitSortChanged SenderRemote) this w))
              \/ ((service backendApi = None
                   \/ exists backendService,
                        service backendApi = Some backendService
                        /\ getCurrentSorters backendService = false)
                  /\ sorters = []
                  /\ existsb is_getCurrentSorters
                       (trace env (emitSortChanged SenderRemote) this w)
                     = false))).
Proof.
  split; [|split; [|split; [|split]]].
  - intros api svc Hst Hsvc Hget answer. split.
    + unfold trace. rewrite run_emit_remote, Hst, Hsvc, Hget.
      cbv zeta. cbn [fst snd app]. unit_answers. reflexivity.
    + intros event a g contract contractService Hg Hc Hp Hs t.
      pose proof (emitted_backend_valid event a g contract contractService
                    this w Hg Hc Hp Hs) as Hem.
      cbv zeta in Hem. fold t in Hem. rewrite Hem.
      subst t. unfold trace.
      rewrite (run_backend_valid event a g contract contractService this w
                 Hg Hc Hp Hs).
      cbv zeta. cbn [fst snd].
      rewrite !run_emit_remote, Hst, Hsvc, Hget. cbv zeta. cbn [fst snd app].
      eexists. split; [|reflexivity]. find_in.
  - reflexivity.
  - intros grid gridOptions dataView e args array Harray m.
    unfold trace, after, m.
    rewrite (run_localOnSort_array env _ _ _ _ _ array) by assumption.
    reflexivity.
  - intros api Hst Hno. unfold trace. rewrite run_emit_remote, Hst.
    destruct Hno as [-> | (svc & -> & ->)];
      cbv zeta; cbn [fst snd app]; unit_answers; reflexivity.
  - intros sorters. unfold trace. rewrite run_emit_remote.
    destruct (storedBackendServiceApi this) as [api|]; [|intros []].
    destruct (service api) as [svc|] eqn:Hsvc.
    + destruct (getCurrentSorters svc) eqn:Hget;
        cbv zeta; cbn [fst snd app emitted In].
      * intros [<- | []]. exists api. split; [reflexivity|]. left.
        exists svc. split; [exact Hsvc|]. split; [exact Hget|].
        left. reflexivity.
      * intros [<- | []]. exists api. split; [reflexivity|]. right.
        split; [|split; reflexivity]. right. exists svc.
        split; [exact Hsvc | exact Hget].
    + cbv zeta. cbn [fst snd app emitted In].
      intros [<- | []]. exists api. split; [reflexivity|]. right.
      split; [|split; reflexivity]. left. exact Hsvc.
Qed.

(** C7, as first stated, fails: the stored [backendServiceApi] has a
    service without [getCurrentSorters]; the emission made for 'remote'
    carries the empty list and no service was asked for it. *)
Lemma remote_emission_without_query :
  let t := trace demo_env (emitSortChanged SenderRemote)
             (demo_attached (Some demo_plainOptions)) tt in
  ~ (forall sorters,
       In sorters (emitted t) ->
       exists backendService,
         In (Ev (ServiceGetCurrentSorters backendService) sorters) t).
Proof.
  cbv zeta. intros Hclaim.
  destruct (Hclaim [] (or_introl eq_refl)) as [svc Hin].
  destruct Hin as [Heq | []].
  apply (f_equal is_getCurrentSorters) in Heq. discriminate Heq.
Qed.

(** C10.  For the sender 'remote' nothing is emitted when the stored grid
    options have no [backendServiceApi]; so a backend configured through
    [onBackendEventApi] alone passes the contract check, has its [process]
    called, and emits nothing; and when [backendServiceApi] is there but
    its service is missing or has no [getCurrentSorters], the emission
    carries the empty list. *)
Theorem remote_emission_needs_backendServiceApi (this : SortService) (w : W) :
  (storedBackendServiceApi this = None ->
   trace env (emitSortChanged SenderRemote) this w = [])
  /\ (forall backendApi,
        storedBackendServiceApi this = Some backendApi ->
        (service backendApi = None
         \/ exists backendService,
              service backendApi = Some backendService
              /\ getCurrentSorters backendService = false) ->
        trace env (emitSortChanged SenderRemote) this w
        = [Ev (SubjectNext []) tt])
  /\ (forall event a g options backendApi backendService,
        args_grid a = Some g ->
        getOptions g = Some options ->
        backendServiceApi options = None ->
        onBackendEventApi options = Some backendApi ->
        process backendApi = true ->
        service backendApi = Some backendService ->
        _gridOptions this = Some options ->
        let t :=
          trace env (attachBackendOnSortSubscribe event (Some a)) this w in
        emitted t = []
        /\ exists query promise, In (Ev (Process backendApi query) promise) t).
Proof.
  split; [|split].
  - intros Hst. unfold trace. rewrite run_emit_remote, Hst. reflexivity.
  - intros api Hst Hno. unfold trace. rewrite run_emit_remote, Hst.
    destruct Hno as [-> | (svc & -> & ->)];
      cbv zeta; cbn [fst snd app]; unit_answers; reflexivity.
  - intros event a g options api svc Hg Hopt Hnew Hlegacy Hp Hs Hstored t.
    assert (Hc : backendApiOf (gridOptionsOf g) = Some api).
    { unfold backendApiOf, gridOptionsOf. rewrite Hopt. simpl.
      rewrite Hnew. exact Hlegacy. }
    assert (Hst : storedBackendServiceApi this = None).
    { unfold storedBackendServiceApi. rewrite Hstored. exact Hnew. }
    split.
    + pose proof (emitted_backend_valid event a g api svc this w Hg Hc Hp Hs)
        as Hem.
      cbv zeta in Hem. fold t in Hem. rewrite Hem.
      unfold trace. rewrite run_emit_remote, Hst. reflexivity.
    + subst t. unfold trace.
      rewrite (run_backend_valid event a g api svc this w Hg Hc Hp Hs).
      cbv zeta. cbn [fst snd]. do 2 eexists. find_in.
Qed.

End Backend.

(** ** Disposal *)
Section Dispose.
Context `{JsHost} {W : Type} (env : Env W).

Lemma run_dispose (this : SortService) (w : W) :
  run env (dispose this) w
  = let r0 :=
      run env
        (match _slickSubscriber this with
         | Some subscriber =>
             when (ev_unsubscribe subscriber)
               (call (SlickUnsubscribe subscriber))
         | None => ret tt
         end this) w in
    let a1 := env _ EventHandlerUnsubscribeAll (snd r0) in
    (fst (fst r0) ++ [Ev EventHandlerUnsubscribeAll (fst a1)],
     (Normal (fst a1), this), snd a1)%list.
Proof.
  unfold dispose. rewrite run_bind, run_get_this. cbv zeta. cbn [fst snd app].
  rewrite run_bind.
  destruct (_slickSubscriber this) as [s|]; [|reflexivity].
  rewrite run_when_call. destruct (ev_unsubscribe s); reflexivity.
Qed.

Lemma dispose_returns (this : SortService) (w : W) :
  completion env dispose this w = Normal tt
  /\ after env dispose this w = this.
Proof.
  unfold completion, after. rewrite run_dispose. cbv zeta. cbn [fst snd].
  split; [|reflexivity].
  match goal with |- Normal ?u = _ => destruct u end. reflexivity.
Qed.

Lemma times_dispose_returns (n : nat) (this : SortService) (w : W) :
  completion env (times n dispose) this w = Normal tt
  /\ after env (times n dispose) this w = this.
Proof.
  revert w. induction n as [|n IH]; intros w.
  - split; reflexivity.
  - cbn [times]. rewrite completion_bind, after_bind.
    destruct (dispose_returns this w) as [-> ->]. apply IH.
Qed.

(** C9.  [dispose] returns and leaves the fields of the service as they
    are, on a fresh service as on any other: with no subscriber, or one
    without an [unsubscribe] function, it only asks the event handler to
    unsubscribe all; and any number of calls in a row return as well. *)
Theorem dispose_never_throws (this : SortService) (w : W) :
  completion env dispose this w = Normal tt
  /\ after env dispose this w = this
  /\ completion env dispose new_SortService w = Normal tt
  /\ ((_slickSubscriber this = None
       \/ exists subscriber,
            _slickSubscriber this = Some subscriber
            /\ ev_unsubscribe subscriber = false) ->
      trace env dispose this w = [Ev EventHandlerUnsubscribeAll tt])
  /\ (forall subscriber,
        _slickSubscriber this = Some subscriber ->
        ev_unsubscribe subscriber = true ->
        trace env dispose this w
        = [Ev (SlickUnsubscribe subscriber) tt;
           Ev EventHandlerUnsubscribeAll tt])
  /\ forall n : nat,
       completion env (times n dispose) this w = Normal tt
       /\ after env (times n dispose) this w = this.
Proof.
  destruct (dispose_returns this w) as [Hc Ha].
  split; [exact Hc|]. split; [exact Ha|].
  split; [apply dispose_returns|]. split; [|split].
  - intros Hnone. unfold trace. rewrite run_dispose.
    destruct Hnone as [-> | (s & -> & Hs)].
    + cbv zeta. cbn [fst snd app run ret]. unit_answers. reflexivity.
    + rewrite run_when_call, Hs. cbv zeta. cbn [fst snd app].
      unit_answers. reflexivity.
  - intros s Hsub Hs. unfold trace. rewrite run_dispose, Hsub.
    rewrite run_when_call, Hs. cbv zeta. cbn [fst snd app].
    unit_answers. reflexivity.
  - intros n. apply times_dispose_returns.
Qed.

End Dispose.

(** ** The statements at work on the example grid *)

Example comparator_numeric_ascending :
  compareRows [ {| columnId := None; sortAsc := true;
                   sortCol := Some demo_colA |} ] demo_row1 demo_row2 = 1
  /\ compareRows [ {| columnId := None; sortAsc := false;
                      sortCol := Some demo_colA |} ] demo_row1 demo_row2 = -1.
Proof. split; vm_compute; reflexivity. Qed.

Example comparator_uses_queryField :
  sortFieldOf demo_colB = "b.sortKey"
  /\ sortFieldOf demo_colC = "c"
  /\ fieldTypeOf demo_colB = FT_string
  /\ fieldTypeOf demo_colC = FT_string
  /\ id_to_string (id demo_colC) = "3".
Proof. repeat split. Qed.

Example presets_example :
  let load := loadLocalPresets (demo_grid (Some demo_presetOptions))
                (Some demo_presetOptions) demo_dataView demo_columns in
  _currentLocalSorters (after demo_env load demo_sorted tt)
  = [ {| cs_columnId := IdString "A"; cs_direction := "ASC" |};
      {| cs_columnId := IdString "B"; cs_direction := "DESC" |} ].
Proof. vm_compute. reflexivity. Qed.

Example backend_example :
  let m := attachBackendOnSortSubscribe (VString "click")
             (Some (demo_gesture (Some demo_backendOptions))) in
  map phase (trace demo_env m (demo_attached (Some demo_backendOptions)) tt)
  = [0; 1; 2; 3; 4; 5; 6; 7]%nat
  /\ emitted (trace demo_env m (demo_attached (Some demo_backendOptions)) tt)
     = [demo_serviceSorters]
  /\ completion demo_env m (demo_attached (Some demo_backendOptions)) tt
     = Normal tt.
Proof. repeat split; vm_compute; reflexivity. Qed.

Example local_example :
  let m := localOnSort (demo_grid None) None demo_dataView VUndefined
             (Some demo_multiGesture) in
  _currentLocalSorters (after demo_env m demo_sorted tt)
  = [ {| cs_columnId := IdString "B"; cs_direction := "DESC" |};
      {| cs_columnId := IdString "A"; cs_direction := "ASC" |} ]
  /\ emitted (trace demo_env m demo_sorted tt)
     = [ [ {| cs_columnId := IdString "B"; cs_direction := "DESC" |};
           {| cs_columnId := IdString "A"; cs_direction := "ASC" |} ] ]
  /\ completion demo_env m demo_sorted tt = Normal tt.
Proof. repeat split; vm_compute; reflexivity. Qed.


(** C3 on the example columns and presets: B descending is given before
    A ascending, and A comes out first; the presets given the other way
    round write the same state. *)
Lemma presets_reconciled_in_column_order_witness :
  let load := loadLocalPresets (demo_grid (Some demo_presetOptions))
                (Some demo_presetOptions) demo_dataView demo_columns in
  let swapped := demo_optionsWith (rev demo_presets) in
  presetSorters (Some demo_presetOptions) = Some demo_presets
  /\ presetSorters swapped = Some (rev demo_presets)
  /\ Permutation demo_presets (rev demo_presets)
  /\ _currentLocalSorters (after demo_env load demo_sorted tt)
     = [ {| cs_columnId := IdString "A"; cs_direction := "ASC" |};
         {| cs_columnId := IdString "B"; cs_direction := "DESC" |} ]
  /\ _currentLocalSorters
       (after demo_env
          (loadLocalPresets (demo_grid (Some demo_presetOptions)) swapped
             demo_dataView demo_columns) demo_sorted tt)
     = _currentLocalSorters (after demo_env load demo_sorted tt).
Proof.
  cbv zeta.
  assert (HP : Permutation demo_presets (rev demo_presets))
    by (apply Permutation_rev).
  assert (Hagree : forall p q, In p demo_presets -> In q demo_presets ->
            cs_columnId p = cs_columnId q ->
            toUpperCase (cs_direction p) = toUpperCase (cs_direction q)).
  { intros p q [<- | [<- | []]] [<- | [<- | []]] Hid;
      try reflexivity; discriminate Hid. }
  pose proof (presets_reconciled_in_column_order demo_env
                (demo_grid (Some demo_presetOptions))
                (Some demo_presetOptions) demo_dataView demo_columns
                demo_presets demo_sorted tt eq_refl) as Hthm.
  cbv zeta in Hthm.
  destruct Hthm as (_ & Hstate & _ & _ & _ & _ & Hperm).
  split; [reflexivity|]. split; [reflexivity|]. split; [exact HP|].
  split; [exact Hstate|].
  exact (proj1 (proj2 (proj2 (Hperm (demo_optionsWith (rev demo_presets))
                                (rev demo_presets) eq_refl HP)) Hagree)).
Defined.

(** C5 on the multi-column gesture (a pair without column, B descending,
    A ascending) and on a single-column gesture. *)
Lemma local_gesture_sets_canonical_state_witness :
  _currentLocalSorters
    (after demo_env
       (localOnSort (demo_grid None) None demo_dataView VUndefined
          (Some demo_multiGesture)) demo_sorted tt)
  = [ {| cs_columnId := IdString "B"; cs_direction := "DESC" |};
      {| cs_columnId := IdString "A"; cs_direction := "ASC" |} ]
  /\ args_multiColumnSort (demo_gesture None) = false
  /\ gestureSortColumns (demo_gesture None)
     = Some [ {| columnId := None; sortAsc := true;
                 sortCol := Some demo_colA |} ].
Proof.
  split; [|split; [reflexivity|]].
  - exact (proj1 (proj2 (proj2 (local_gesture_sets_canonical_state demo_env
                                  (demo_grid None) None demo_dataView
                                  VUndefined demo_multiGesture demo_sorted
                                  tt)))).
  - exact (proj1 (proj1 (local_gesture_sets_canonical_state demo_env
                           (demo_grid None) None demo_dataView VUndefined
                           (demo_gesture None) demo_sorted tt) eq_refl)).
Defined.

(** C1, as amended, on the report 3 -> 5. *)
Lemma presets_loaded_on_every_positive_row_count_witness :
  0 < current {| previous := 3; current := 5 |}
  /\ existsb is_loadLocalPresets
       (trace demo_env
          (localOnRowCountChanged (demo_grid None) None demo_dataView
             demo_columns VUndefined {| previous := 3; current := 5 |})
          new_SortService tt)
     = true.
Proof.
  assert (Hpos : 0 < current {| previous := 3; current := 5 |})
    by (simpl; lia).
  split; [exact Hpos|].
  exact (proj2 (proj2 (presets_loaded_on_every_positive_row_count demo_env
                         (demo_grid None) None demo_dataView demo_columns
                         VUndefined [] new_SortService tt)
                  {| previous := 3; current := 5 |}) Hpos).
Defined.

(** C4 on the example backend contract. *)
Lemma backend_calls_in_order_witness :
  let options := Some demo_backendOptions in
  args_grid (demo_gesture options) = Some (demo_grid options)
  /\ backendApiOf (gridOptionsOf (demo_grid options)) = Some demo_api
  /\ process demo_api = true
  /\ service demo_api = Some demo_service
  /\ preProcess demo_api = true
  /\ In (Ev (PreProcess demo_api) tt)
        (trace demo_env
           (attachBackendOnSortSubscribe (VString "click")
              (Some (demo_gesture options)))
           (demo_attached options) tt).
Proof.
  cbv zeta. repeat (split; [reflexivity|]).
  exact (proj1 (proj2 (backend_calls_in_order demo_env (VString "click")
                         (Some (demo_gesture (Some demo_backendOptions)))
                         (demo_attached (Some demo_backendOptions)) tt)
                  (demo_gesture (Some demo_backendOptions))
                  (demo_grid (Some demo_backendOptions))
                  demo_api demo_service
                  eq_refl eq_refl eq_refl eq_refl eq_refl) eq_refl).
Defined.

(** C6 without [args], and with a grid that has no options. *)
Lemma backend_rejects_without_effect_witness :
  (run demo_env
     (attachBackendOnSortSubscribe (VString "click") None demo_sorted) tt
   = ([], (Thrown (Error argsNotPopulated), demo_sorted), tt))
  /\ backendApiOf (gridOptionsOf (demo_grid None)) = None
  /\ run demo_env
       (attachBackendOnSortSubscribe (VString "click")
          (Some (demo_gesture None)) demo_sorted) tt
     = ([], (Thrown (Error backendApiRequired), demo_sorted), tt).
Proof.
  split; [|split; [reflexivity|]].
  - exact (proj1 (backend_rejects_without_effect demo_env (VString "click")
                    None demo_sorted tt) (or_introl eq_refl)).
  - exact (proj2 (backend_rejects_without_effect demo_env (VString "click")
                    (Some (demo_gesture None)) demo_sorted tt)
             (demo_gesture None) (demo_grid None) eq_refl eq_refl
             (or_introl eq_refl)).
Defined.

(** C7, as amended, on the example backend service, which has
    [getCurrentSorters], and on the one that has not. *)
Lemma emissions_carry_current_sorters_witness :
  let this := demo_attached (Some demo_backendOptions) in
  let plain := demo_attached (Some demo_plainOptions) in
  storedBackendServiceApi this = Some demo_api
  /\ service demo_api = Some demo_service
  /\ getCurrentSorters demo_service = true
  /\ trace demo_env (emitSortChanged SenderRemote) this tt
     = [Ev (ServiceGetCurrentSorters demo_service) demo_serviceSorters;
        Ev (SubjectNext demo_serviceSorters) tt]
  /\ getCurrentSorters demo_plainService = false
  /\ trace demo_env (emitSortChanged SenderRemote) plain tt
     = [Ev (SubjectNext []) tt].
Proof.
  cbv zeta. do 3 (split; [reflexivity|]).
  split.
  - exact (proj1 (proj1 (emissions_carry_current_sorters demo_env
                           (demo_attached (Some demo_backendOptions)) tt)
                    demo_api demo_service eq_refl eq_refl eq_refl)).
  - split; [reflexivity|].
    exact (proj1 (proj2 (proj2 (proj2 (emissions_carry_current_sorters
                                         demo_env
                                         (demo_attached
                                            (Some demo_plainOptions)) tt))))
             _ eq_refl
             (or_intror (ex_intro _ demo_plainService
                           (conj eq_refl eq_refl)))).
Defined.

(** C10 on the contract given through [onBackendEventApi] alone. *)
Lemma remote_emission_needs_backendServiceApi_witness :
  let options := Some demo_legacyOptions in
  storedBackendServiceApi (demo_attached options) = None
  /\ trace demo_env (emitSortChanged SenderRemote) (demo_attached options) tt
     = []
  /\ emitted
       (trace demo_env
          (attachBackendOnSortSubscribe (VString "click")
             (Some (demo_gesture options)))
          (demo_attached options) tt)
     = [].
Proof.
  cbv zeta. split; [reflexivity|]. split.
  - exact (proj1 (remote_emission_needs_backendServiceApi demo_env
                    (demo_attached (Some demo_legacyOptions)) tt) eq_refl).
  - exact (proj1 (proj2 (proj2 (remote_emission_needs_backendServiceApi
                                  demo_env
                                  (demo_attached (Some demo_legacyOptions))
                                  tt))
                    (VString "click")
                    (demo_gesture (Some demo_legacyOptions))
                    (demo_grid (Some demo_legacyOptions))
                    demo_legacyOptions demo_api demo_service
                    eq_refl eq_refl eq_refl eq_refl eq_refl eq_refl eq_refl)).
Defined.

(** C9 on a service that was never attached. *)
Lemma dispose_never_throws_witness :
  _slickSubscriber new_SortService = None
  /\ trace demo_env dispose new_SortService tt
     = [Ev EventHandlerUnsubscribeAll tt]
  /\ completion demo_env dispose new_SortService tt = Normal tt.
Proof.
  split; [reflexivity|]. split.
  - exact (proj1 (proj2 (proj2 (proj2 (dispose_never_throws demo_env
                                         new_SortService tt))))
             (or_introl eq_refl)).
  - exact (proj1 (dispose_never_throws demo_env new_SortService tt)).
Defined.

(** * Further properties of the service *)

(** ** The backend callback, continued *)
Section BackendMore.
Context `{JsHost} {W : Type} (env : Env W).

Lemma settledOf_app (t1 t2 : list Event) :
  settledOf (t1 ++ t2) = (settledOf t1 ++ settledOf t2)%list.
Proof.
  induction t1 as [|[R c r] t1 IH]; [reflexivity|].
  destruct c; simpl; rewrite ?IH; reflexivity.
Qed.

(** The part before the wait holds no wait and no post hook. *)
Lemma preProcess_part (api : BackendServiceApi) (this : SortService) (w : W) :
  let t := fst (fst (run env (when (preProcess api) (call (PreProcess api))
                                this) w)) in
  settledOf t = []
  /\ existsb is_internalPostProcess t = false
  /\ existsb is_postProcess t = false.
Proof.
  cbv zeta. rewrite run_when_call.
  destruct (preProcess api); repeat split; reflexivity.
Qed.

Lemma emit_remote_part (this : SortService) (w : W) :
  let t := fst (fst (run env (emitSortChanged SenderRemote this) w)) in
  settledOf t = []
  /\ existsb is_internalPostProcess t = false
  /\ existsb is_postProcess t = false.
Proof.
  cbv zeta. rewrite run_emit_remote.
  destruct (storedBackendServiceApi this) as [api|];
    [|repeat split; reflexivity].
  destruct (service api) as [svc|]; [|repeat split; reflexivity].
  destruct (getCurrentSorters svc); repeat split; reflexivity.
Qed.

(** What follows the wait, by its outcome. *)
Lemma after_await_part (api : BackendServiceApi) (settled : Settled)
    (this : SortService) (w : W) :
  let r :=
    run env
      (match settled with
       | Rejected reason => throw (Rejection reason)
       | Fulfilled processResult =>
           when (truthy processResult && internalPostProcess api)
             (call (InternalPostProcess api processResult)) ;;
           when (postProcess api) (call (PostProcess api processResult))
       end this) w in
  settledOf (fst (fst r)) = []
  /\ snd (snd (fst r)) = this
  /\ match settled with
     | Rejected reason =>
         fst (fst r) = []
         /\ fst (snd (fst r)) = Thrown (Rejection reason)
     | Fulfilled result =>
         fst (snd (fst r)) = Normal tt
         /\ existsb is_internalPostProcess (fst (fst r))
            = truthy result && internalPostProcess api
         /\ existsb is_postProcess (fst (fst r)) = postProcess api
         /\ (truthy result && internalPostProcess api = true ->
             In (Ev (InternalPostProcess api result) tt) (fst (fst r)))
         /\ (postProcess api = true ->
             In (Ev (PostProcess api result) tt) (fst (fst r)))
     end.
Proof.
  cbv zeta. destruct settled as [result|reason];
    [|repeat split; reflexivity].
  rewrite run_bind, !run_when_call.
  destruct (truthy result && internalPostProcess api);
    cbv zeta; cbn [fst snd]; rewrite ?run_when_call;
    destruct (postProcess api); cbn [fst snd app];
    repeat split; try reflexivity; try discriminate;
    try (match goal with |- Normal ?u = _ => destruct u end; reflexivity);
    try (intros _; unit_answers; cbn [In]; auto).
Qed.

(** X1.  On a populated gesture and a valid contract the callback waits
    once.  When the wait ends in a rejection the callback throws its
    reason and calls neither [internalPostProcess] nor [postProcess];
    when it ends in a result the callback returns, [internalPostProcess]
    is called iff it is set and the result is truthy, and [postProcess]
    iff it is set. *)
Theorem backend_outcome_follows_await (event : Value) (a : SortArgs)
    (g : Grid) (backendApi : BackendServiceApi)
    (backendService : BackendService) (this : SortService) (w : W) :
  args_grid a = Some g ->
  backendApiOf (gridOptionsOf g) = Some backendApi ->
  process backendApi = true ->
  service backendApi = Some backendService ->
  let m := attachBackendOnSortSubscribe event (Some a) in
  let t := trace env m this w in
  exists settled,
    settledOf t = [settled]
    /\ match settled with
       | Rejected reason =>
           completion env m this w = Thrown (Rejection reason)
           /\ existsb is_internalPostProcess t = false
           /\ existsb is_postProcess t = false
           /\ existsb is_process t = true
       | Fulfilled result =>
           completion env m this w = Normal tt
           /\ existsb is_internalPostProcess t
              = truthy result && internalPostProcess backendApi
           /\ existsb is_postProcess t = postProcess backendApi
           /\ (postProcess backendApi = true ->
               In (Ev (PostProcess backendApi result) tt) t)
       end.
Proof.
  intros Hg Hapi Hprocess Hsvc m t. subst m t. unfold trace, completion.
  rewrite (run_backend_valid env event a g backendApi backendService this w
             Hg Hapi Hprocess Hsvc).
  cbv zeta. cbn [fst snd].
  match goal with
  | |- context [Ev (Await ?p) ?s] => exists s; set (settled := s)
  end.
  match goal with
  | |- context [run env (when (preProcess backendApi) ?c this) ?w0] =>
      destruct (preProcess_part backendApi this w0) as (Hs0 & Hi0 & Hp0)
  end.
  match goal with
  | |- context [run env (emitSortChanged SenderRemote this) ?w1] =>
      destruct (emit_remote_part this w1) as (Hs2 & Hi2 & Hp2)
  end.
  match goal with
  | |- context [run env (match settled with _ => _ end this) ?w4] =>
      pose proof (after_await_part backendApi settled this w4) as Hpost
  end.
  cbv zeta in Hpost. destruct Hpost as (Hs5 & _ & Hout).
  split.
  - rewrite settledOf_app. cbn [settledOf]. rewrite settledOf_app.
    cbn [settledOf]. rewrite Hs0, Hs2, Hs5. reflexivity.
  - rewrite !existsb_app. cbn [existsb]. rewrite !existsb_app.
    cbn [existsb is_internalPostProcess is_postProcess is_process].
    rewrite Hi0, Hi2, Hp0, Hp2. cbn [orb].
    destruct settled as [result|reason].
    + destruct Hout as (Hc & Hi & Hp & _ & Hin).
      split; [exact Hc|]. split; [exact Hi|]. split; [exact Hp|].
      intros Hset. rewrite in_app_iff. right. right.
      rewrite in_app_iff. right. right. right. apply Hin. exact Hset.
    + destruct Hout as (Ht & Hc). rewrite Ht.
      split; [exact Hc|]. split; [reflexivity|]. split; [reflexivity|].
      rewrite !orb_true_r. reflexivity.
Qed.

(** X2.  On a populated gesture and a valid contract the service's
    [onSortChanged] gets the very event and [args] of the callback, the
    query it returns is the one handed to [process], and what [process]
    returns is what is awaited. *)
Theorem backend_query_flows_to_process (event : Value) (a : SortArgs)
    (g : Grid) (backendApi : BackendServiceApi)
    (backendService : BackendService) (this : SortService) (w : W) :
  args_grid a = Some g ->
  backendApiOf (gridOptionsOf g) = Some backendApi ->
  process backendApi = true ->
  service backendApi = Some backendService ->
  let t := trace env (attachBackendOnSortSubscribe event (Some a)) this w in
  exists query promise settled,
    In (Ev (ServiceOnSortChanged backendService event a) query) t
    /\ In (Ev (Process backendApi query) promise) t
    /\ In (Ev (Await promise) settled) t.
Proof.
  intros Hg Hapi Hprocess Hsvc t. subst t. unfold trace.
  rewrite (run_backend_valid env event a g backendApi backendService this w
             Hg Hapi Hprocess Hsvc).
  cbv zeta. cbn [fst snd].
  match goal with
  | |- context [Ev (Await ?p) ?s] =>
      match goal with
      | |- context [Ev (Process backendApi ?q) p] => exists q, p, s
      end
  end.
  repeat split; find_in.
Qed.

Lemma increasing_count (n : nat) (l : list nat) :
  increasing l = true ->
  (length (List.filter (Nat.eqb n) l) <= 1)%nat.
Proof.
  induction l as [|a l IH]; intros Hinc; [simpl; lia|].
  specialize (IH (increasing_tail _ _ Hinc)).
  cbn [List.filter]. destruct (Nat.eqb n a) eqn:Hna; [|lia].
  apply Nat.eqb_eq in Hna. subst a.
  destruct (List.filter (Nat.eqb n) l) as [|b rest] eqn:Hf; [simpl; lia|].
  exfalso.
  assert (Hin : In b (List.filter (Nat.eqb n) l))
    by (rewrite Hf; left; reflexivity).
  apply List.filter_In in Hin as [Hin Hb]. apply Nat.eqb_eq in Hb. subst b.
  apply In_nth_error in Hin as [j Hj].
  assert (Hl : l !! j = Some n).
  { clear -Hj. revert j Hj. induction l as [|x l IH]; intros [|j] Hj;
      simpl in *; try discriminate; [exact Hj | apply IH; exact Hj]. }
  pose proof (increasing_head _ _ _ _ Hinc Hl). lia.
Qed.

Lemma filter_by_phase (P : Event -> bool) (n : nat) (t : list Event) :
  (forall e, P e = true -> phase e = n) ->
  (length (List.filter P t)
   <= length (List.filter (Nat.eqb n) (map phase t)))%nat.
Proof.
  intros HP. induction t as [|e t IH]; [simpl; lia|].
  cbn [List.filter map]. destruct (P e) eqn:He.
  - rewrite (HP e He), Nat.eqb_refl. simpl. lia.
  - destruct (Nat.eqb n (phase e)); simpl; lia.
Qed.

Ltac one_phase :=
  intros [R c r]; destruct c; simpl; try discriminate; reflexivity.

(** X3.  Whatever gesture and options it is given, one run of the callback
    calls each of [preProcess], [onSortChanged], [getCurrentSorters],
    [process], [internalPostProcess] and [postProcess] at most once, emits
    at most once and waits at most once. *)
Theorem backend_calls_at_most_once (event : Value) (args : option SortArgs)
    (this : SortService) (w : W) :
  let t := trace env (attachBackendOnSortSubscribe event args) this w in
  (length (List.filter is_preProcess t) <= 1)%nat
  /\ (length (List.filter is_onSortChanged t) <= 1)%nat
  /\ (length (List.filter is_getCurrentSorters t) <= 1)%nat
  /\ (length (List.filter is_emission t) <= 1)%nat
  /\ (length (List.filter is_process t) <= 1)%nat
  /\ (length (List.filter is_await t) <= 1)%nat
  /\ (length (List.filter is_internalPostProcess t) <= 1)%nat
  /\ (length (List.filter is_postProcess t) <= 1)%nat.
Proof.
  intros t.
  pose proof (backend_trace_increasing env event args this w) as Hinc.
  fold t in Hinc.
  repeat split.
  - eapply Nat.le_trans;
      [apply (filter_by_phase _ 0%nat); one_phase | apply increasing_count; exact Hinc].
  - eapply Nat.le_trans;
      [apply (filter_by_phase _ 1%nat); one_phase | apply increasing_count; exact Hinc].
  - eapply Nat.le_trans;
      [apply (filter_by_phase _ 2%nat); one_phase | apply increasing_count; exact Hinc].
  - eapply Nat.le_trans;
      [apply (filter_by_phase _ 3%nat); one_phase | apply increasing_count; exact Hinc].
  - eapply Nat.le_trans;
      [apply (filter_by_phase _ 4%nat); one_phase | apply increasing_count; exact Hinc].
  - eapply Nat.le_trans;
      [apply (filter_by_phase _ 5%nat); one_phase | apply increasing_count; exact Hinc].
  - eapply Nat.le_trans;
      [apply (filter_by_phase _ 6%nat); one_phase | apply increasing_count; exact Hinc].
  - eapply Nat.le_trans;
      [apply (filter_by_phase _ 7%nat); one_phase | apply increasing_count; exact Hinc].
Qed.

(** X4.  The backend callback never writes a field of the service: after
    any run, thrown or returned, the canonical local state, the stored grid
    and its options and the subscriber are what they were. *)
Theorem backend_leaves_fields (event : Value) (args : option SortArgs)
    (this : SortService) (w : W) :
  after env (attachBackendOnSortSubscribe event args) this w = this.
Proof.
  unfold after.
  destruct args as [a|]; [|reflexivity].
  destruct (args_grid a) as [g|] eqn:Hg;
    [|unfold attachBackendOnSortSubscribe, populatedArgs; rewrite Hg;
      reflexivity].
  destruct (backendApiOf (gridOptionsOf g)) as [api|] eqn:Hapi;
    [|unfold attachBackendOnSortSubscribe, populatedArgs; rewrite Hg, Hapi;
      reflexivity].
  destruct (process api) eqn:Hp;
    [|unfold attachBackendOnSortSubscribe, populatedArgs;
      rewrite Hg, Hapi, Hp; reflexivity].
  destruct (service api) as [svc|] eqn:Hs;
    [|unfold attachBackendOnSortSubscribe, populatedArgs;
      rewrite Hg, Hapi, Hp, Hs; reflexivity].
  rewrite (run_backend_valid env event a g api svc this w Hg Hapi Hp Hs).
  cbv zeta. cbn [fst snd].
  match goal with
  | |- context [run env (match ?s with _ => _ end this) ?w4] =>
      pose proof (after_await_part api s this w4) as Hpost
  end.
  cbv zeta in Hpost. destruct Hpost as (_ & Hthis & _). exact Hthis.
Qed.

End BackendMore.

(** ** The comparator, continued *)
Section ComparatorMore.
Context `{JsHost}.

(** X5.  The comparator reads the rows through the field of the first
    specification with a column only: rows that agree there compare alike,
    whatever their other fields and whatever later specifications name. *)
Theorem comparator_reads_deciding_field_only
    (dataRow1 dataRow2 otherRow1 otherRow2 : gmap string Value)
    (skipped : list SortChanged) (spec : SortChanged) (c : Column)
    (later later' : list SortChanged) :
  Forall unresolved skipped ->
  sortCol spec = Some c ->
  dataRow1 !! sortFieldOf c = otherRow1 !! sortFieldOf c ->
  dataRow2 !! sortFieldOf c = otherRow2 !! sortFieldOf c ->
  compareRows (skipped ++ spec :: later) dataRow1 dataRow2
  = compareRows (skipped ++ spec :: later') otherRow1 otherRow2.
Proof.
  intros Hskip Hc H1 H2.
  rewrite !compareRows_skip by assumption. simpl. rewrite Hc.
  unfold row_get. rewrite H1, H2. reflexivity.
Qed.

End ComparatorMore.

(** ** Presets and local gestures, continued *)
Section LocalMore.
Context `{JsHost} {W : Type} (env : Env W).

Lemma emitted_loadLocalPresets (grid : Grid)
    (gridOptions : option GridOption) (dataView : DataView)
    (columnDefinitions : list Column) (this : SortService) (w : W) :
  emitted (trace env (loadLocalPresets grid gridOptions dataView
                        columnDefinitions) this w) = [].
Proof.
  unfold trace.
  destruct (presetSorters gridOptions) as [sorters|] eqn:Hs.
  - rewrite (run_loadLocalPresets env _ _ _ _ sorters) by assumption.
    destruct (matchedPresets sorters columnDefinitions); reflexivity.
  - rewrite run_loadLocalPresets_none by assumption. reflexivity.
Qed.

(** X6.  [loadLocalPresets] never emits on [onSortChanged].  It either
    makes no call at all, or sorts the view, invalidates and renders the
    grid and sets the grid's sort columns, in this order, and the list
    handed to [setSortColumns] is the non-empty list the view was sorted
    by. *)
Theorem presets_load_call_sequence (grid : Grid)
    (gridOptions : option GridOption) (dataView : DataView)
    (columnDefinitions : list Column) (this : SortService) (w : W) :
  let t := trace env (loadLocalPresets grid gridOptions dataView
                        columnDefinitions) this w in
  emitted t = []
  /\ (t = []
      \/ exists sortCols compared,
           sortCols <> []
           /\ t = [Ev (DataViewSort dataView (localComparator (Some sortCols)))
                      compared;
                   Ev (GridInvalidate grid) tt;
                   Ev (GridRender grid) tt;
                   Ev (GridSetSortColumns grid sortCols) tt]).
Proof.
  intros t. subst t. unfold trace.
  destruct (presetSorters gridOptions) as [sorters|] eqn:Hs.
  - rewrite (run_loadLocalPresets env _ _ _ _ sorters) by assumption.
    destruct (matchedPresets sorters columnDefinitions) as [|cp l];
      cbn [fst snd].
    + split; [reflexivity | left; reflexivity].
    + split; [reflexivity|]. right.
      exists (map (fun cp0 => presetSortCol (fst cp0) (snd cp0)) (cp :: l)).
      eexists. split.
      * cbn [map]. discriminate.
      * unit_answers. reflexivity.
  - rewrite run_loadLocalPresets_none by assumption.
    split; [reflexivity | left; reflexivity].
Qed.

Lemma after_loadLocalPresets (grid : Grid) (gridOptions : option GridOption)
    (dataView : DataView) (columnDefinitions : list Column)
    (this : SortService) (w : W) :
  after env (loadLocalPresets grid gridOptions dataView columnDefinitions)
    this w
  = with_sorters this
      match presetSorters gridOptions with
      | Some sorters =>
          map (fun cp => presetSorter (fst cp) (snd cp))
              (matchedPresets sorters columnDefinitions)
      | None => []
      end.
Proof.
  unfold after.
  destruct (presetSorters gridOptions) as [sorters|] eqn:Hs.
  - rewrite (run_loadLocalPresets env _ _ _ _ sorters) by assumption.
    destruct (matchedPresets sorters columnDefinitions); reflexivity.
  - rewrite run_loadLocalPresets_none by assumption. reflexivity.
Qed.

(** X7.  A row-count report with a positive current count forgets what a
    gesture left in the canonical state: after a gesture that carries an
    array and then such a report, the state is the one the report gives
    from any other state, and it is empty when no presets are configured,
    although the one emission made still carries the gesture's sorters. *)
Theorem row_count_report_forgets_gesture (grid : Grid)
    (gridOptions : option GridOption) (dataView : DataView)
    (columnDefinitions : list Column) (e : Value) (args : SortArgs)
    (array : list SortChanged) (report : RowCountArgs)
    (this other : SortService) (w w' : W) :
  gestureSortColumns args = Some array ->
  0 < current report ->
  let onReport :=
    localOnRowCountChanged grid gridOptions dataView columnDefinitions
      e report in
  let m := localOnSort grid gridOptions dataView e (Some args) ;; onReport in
  _currentLocalSorters (after env m this w)
  = _currentLocalSorters (after env onReport other w')
  /\ (presetSorters gridOptions = None ->
      _currentLocalSorters (after env m this w) = [])
  /\ emitted (trace env m this w) = [gestureSorters array].
Proof.
  intros Harray Hpos onReport m.
  assert (Hreport : forall s v,
    _currentLocalSorters (after env onReport s v)
    = match presetSorters gridOptions with
      | Some sorters =>
          map (fun cp => presetSorter (fst cp) (snd cp))
              (matchedPresets sorters columnDefinitions)
      | None => []
      end).
  { intros s v. unfold onReport, localOnRowCountChanged, when.
    apply Z.ltb_lt in Hpos. rewrite Hpos.
    rewrite after_bind. unfold completion at 1. rewrite run_call.
    cbn [fst snd]. rewrite after_loadLocalPresets. reflexivity. }
  assert (Hm : after env m this w
               = after env onReport
                   (with_sorters this (gestureSorters array))
                   (world_after env
                      (localOnSort grid gridOptions dataView e (Some args))
                      this w)).
  { unfold m. rewrite after_bind.
    unfold completion at 1, after at 2.
    rewrite (run_localOnSort_array env _ _ _ _ _ array) by assumption.
    reflexivity. }
  split; [|split].
  - rewrite Hm, !Hreport. reflexivity.
  - intros Hnone. rewrite Hm, Hreport, Hnone. reflexivity.
  - unfold m. rewrite trace_bind, emitted_app.
    unfold completion at 1, trace at 1.
    rewrite (run_localOnSort_array env _ _ _ _ _ array) by assumption.
    cbv zeta. cbn [fst snd emitted].
    unfold onReport, localOnRowCountChanged, when.
    apply Z.ltb_lt in Hpos. rewrite Hpos.
    rewrite trace_bind, emitted_app.
    unfold completion at 1, trace at 1. rewrite run_call. cbn [fst snd emitted].
    rewrite emitted_loadLocalPresets. reflexivity.
Qed.

Lemma run_onLocalSortChanged_undefined (grid : Grid)
    (gridOptions : option GridOption) (dataView : DataView)
    (this : SortService) (w : W) :
  let a1 := env _ (DataViewSort dataView (localComparator None)) w in
  run env (onLocalSortChanged grid gridOptions dataView None this) w
  = match fst a1 with
    | [] =>
        let a2 := env _ (GridInvalidate grid) (snd a1) in
        let a3 := env _ (GridRender grid) (snd a2) in
        ([Ev (DataViewSort dataView (localComparator None)) [];
          Ev (GridInvalidate grid) (fst a2);
          Ev (GridRender grid) (fst a3)],
         (Normal (fst a3), this), snd a3)
    | _ :: _ =>
        ([Ev (DataViewSort dataView (localComparator None)) (fst a1)],
         (Thrown (TypeError "Cannot read property 'length' of undefined"),
          this),
         snd a1)
    end.
Proof.
  cbv zeta. unfold onLocalSortChanged, dataView_sort, bind, call.
  cbn [run prog_bind fst snd].
  destruct (fst (env _ (DataViewSort dataView (localComparator None)) w));
    reflexivity.
Qed.

(** X8.  A multi-column gesture whose [sortCols] is not set empties the
    canonical state.  If the view compares no rows when it sorts, the
    callback returns after invalidating and rendering the grid and emits
    the empty list; if the view compares any rows, the callback throws the
    comparator's [TypeError] and the one call made is the sort. *)
Theorem gesture_without_sortCols (grid : Grid)
    (gridOptions : option GridOption) (dataView : DataView) (e : Value)
    (args : SortArgs) (this : SortService) (w : W) :
  gestureSortColumns args = None ->
  let m := localOnSort grid gridOptions dataView e (Some args) in
  let compared :=
    fst (env _ (DataViewSort dataView (localComparator None)) w) in
  _currentLocalSorters (after env m this w) = []
  /\ (compared = [] ->
      completion env m this w = Normal tt
      /\ trace env m this w
         = [Ev (DataViewSort dataView (localComparator None)) [];
            Ev (GridInvalidate grid) tt;
            Ev (GridRender grid) tt;
            Ev (SubjectNext []) tt])
  /\ (compared <> [] ->
      completion env m this w
      = Thrown (TypeError "Cannot read property 'length' of undefined")
      /\ trace env m this w
         = [Ev (DataViewSort dataView (localComparator None)) compared]).
Proof.
  intros Hnone m compared. split; [|split].
  - unfold m. rewrite after_localOnSort, Hnone. reflexivity.
  - intros Hempty. unfold m, completion, trace, localOnSort.
    rewrite Hnone.
    rewrite run_bind, run_set_currentLocalSorters. cbv zeta. cbn [fst snd].
    rewrite run_bind, run_ret. cbv zeta. cbn [fst snd app].
    rewrite run_bind, run_onLocalSortChanged_undefined. cbv zeta.
    fold compared. rewrite Hempty. cbn [fst snd].
    rewrite run_emit_local. cbv zeta.
    cbn [fst snd app _currentLocalSorters with_sorters].
    split.
    + match goal with |- Normal ?u = _ => destruct u end. reflexivity.
    + unit_answers. reflexivity.
  - intros Hsome. unfold m, completion, trace, localOnSort.
    rewrite Hnone.
    rewrite run_bind, run_set_currentLocalSorters. cbv zeta. cbn [fst snd].
    rewrite run_bind, run_ret. cbv zeta. cbn [fst snd app].
    rewrite run_bind, run_onLocalSortChanged_undefined. cbv zeta.
    fold compared. destruct compared as [|rows rest]; [congruence|].
    cbn [fst snd]. split; reflexivity.
Qed.

(** X9.  A gesture that carries an array makes four calls and no other:
    it sorts the view by the comparator over the whole array, invalidates
    the grid, renders it, and then emits the canonical state; it returns,
    and [getCurrentLocalSorters] called next returns the list emitted,
    without a call of its own. *)
Theorem local_gesture_call_sequence (grid : Grid)
    (gridOptions : option GridOption) (dataView : DataView) (e : Value)
    (args : SortArgs) (array : list SortChanged) (this : SortService)
    (w : W) :
  gestureSortColumns args = Some array ->
  let m := localOnSort grid gridOptions dataView e (Some args) in
  exists compared sorters,
    trace env m this w
    = [Ev (DataViewSort dataView (localComparator (Some array))) compared;
       Ev (GridInvalidate grid) tt;
       Ev (GridRender grid) tt;
       Ev (SubjectNext sorters) tt]
    /\ completion env m this w = Normal tt
    /\ completion env (m ;; getCurrentLocalSorters) this w = Normal sorters
    /\ trace env (m ;; getCurrentLocalSorters) this w = trace env m this w.
Proof.
  intros Harray m. do 2 eexists.
  assert (Hc : completion env m this w = Normal tt).
  { unfold completion, m.
    rewrite (run_localOnSort_array env _ _ _ _ _ array) by assumption.
    cbv zeta. cbn [fst snd].
    match goal with |- Normal ?u = _ => destruct u end. reflexivity. }
  split; [|split; [exact Hc|split]].
  - unfold trace, m.
    rewrite (run_localOnSort_array env _ _ _ _ _ array) by assumption.
    cbv zeta. cbn [fst snd]. unit_answers. reflexivity.
  - rewrite completion_bind, Hc. unfold after, m.
    rewrite (run_localOnSort_array env _ _ _ _ _ array) by assumption.
    reflexivity.
  - rewrite trace_bind, Hc. cbn. apply app_nil_r.
Qed.

End LocalMore.

(** ** Presets fed back, and presets that name a column twice *)
Section PresetsMore.
Context `{JsHost} {W : Type} (env : Env W).

Lemma findPreset_by_id (sorters : list CurrentSorter) (c c' : Column) :
  id c = id c' -> findPreset sorters c = findPreset sorters c'.
Proof. unfold findPreset. intros ->. reflexivity. Qed.

Lemma presetSorter_by_id (c c' : Column) (p : CurrentSorter) :
  id c = id c' -> presetSorter c p = presetSorter c' p.
Proof. unfold presetSorter. intros ->. reflexivity. Qed.

Lemma matchedPresets_In (sorters : list CurrentSorter)
    (columnDefinitions : list Column) (c : Column) (p : CurrentSorter) :
  In c columnDefinitions ->
  findPreset sorters c = Some p ->
  In (c, p) (matchedPresets sorters columnDefinitions).
Proof.
  intros Hin Hp. induction columnDefinitions as [|c0 cols IH];
    [destruct Hin|].
  simpl. destruct Hin as [-> | Hin].
  - rewrite Hp. left. reflexivity.
  - destruct (findPreset sorters c0); [right|]; apply IH; exact Hin.
Qed.

Lemma presetSorter_columnId (c : Column) (p : CurrentSorter) :
  stringId c -> cs_columnId (presetSorter c p) = id c.
Proof. intros [s Hs]. unfold presetSorter. simpl. rewrite Hs. reflexivity. Qed.

(** Looking a column with a string id up in the state a load wrote. *)
Lemma findPreset_reloaded (sorters : list CurrentSorter)
    (written : list Column) (c : Column) :
  Forall stringId written ->
  findPreset
    (map (fun cp => presetSorter (fst cp) (snd cp))
         (matchedPresets sorters written)) c
  = match findPreset sorters c with
    | Some p =>
        if existsb (fun c' => bool_decide (id c' = id c)) written
        then Some (presetSorter c p) else None
    | None => None
    end.
Proof.
  intros Hstr. induction Hstr as [|c0 written Hc0 _ IH].
  - simpl. destruct (findPreset sorters c); reflexivity.
  - cbn [matchedPresets existsb].
    destruct (findPreset sorters c0) as [p0|] eqn:Hp0.
    + cbn [map fst snd]. unfold findPreset at 1. cbn [find].
      fold (findPreset
              (map (fun cp => presetSorter (fst cp) (snd cp))
                   (matchedPresets sorters written)) c).
      pose proof (presetSorter_columnId c0 p0 Hc0) as Hcol.
      destruct (bool_decide (cs_columnId (presetSorter c0 p0) = id c)) eqn:Hb.
      * apply bool_decide_eq_true in Hb. rewrite Hcol in Hb.
        rewrite <- (findPreset_by_id sorters c0 c Hb), Hp0.
        rewrite (bool_decide_eq_true_2 _ Hb). cbn [orb].
        rewrite (presetSorter_by_id c0 c p0 Hb). reflexivity.
      * apply bool_decide_eq_false in Hb. rewrite Hcol in Hb.
        rewrite (bool_decide_eq_false_2 _ Hb). cbn [orb]. exact IH.
    + destruct (bool_decide (id c0 = id c)) eqn:Hid.
      * apply bool_decide_eq_true in Hid.
        rewrite <- (findPreset_by_id sorters c0 c Hid), Hp0.
        rewrite IH, <- (findPreset_by_id sorters c0 c Hid), Hp0.
        reflexivity.
      * cbn [orb]. exact IH.
Qed.

Lemma matchedPresets_reloaded (sorters : list CurrentSorter)
    (written columnDefinitions : list Column) :
  Forall stringId written ->
  (forall c, In c columnDefinitions -> In c written) ->
  matchedPresets
    (map (fun cp => presetSorter (fst cp) (snd cp))
         (matchedPresets sorters written)) columnDefinitions
  = map (fun cp => (fst cp, presetSorter (fst cp) (snd cp)))
        (matchedPresets sorters columnDefinitions).
Proof.
  intros Hstr Hsub.
  induction columnDefinitions as [|c cols IH]; [reflexivity|].
  assert (Hex : existsb (fun c' => bool_decide (id c' = id c)) written = true).
  { apply existsb_exists. exists c. split.
    - apply Hsub. left. reflexivity.
    - apply bool_decide_eq_true. reflexivity. }
  cbn [matchedPresets]. rewrite findPreset_reloaded by assumption.
  rewrite Hex.
  destruct (findPreset sorters c) as [p|]; cbn [map fst snd];
    rewrite IH by (intros c' Hc'; apply Hsub; right; exact Hc');
    reflexivity.
Qed.

(** X10.  Presets round trip through the service when the columns have
    string ids and uppercasing twice is uppercasing once: feeding the
    canonical state a load wrote back as the presets, over the same
    columns, writes the same state again. *)
Theorem presets_reload_is_stable (grid : Grid)
    (gridOptions gridOptions' : option GridOption) (dataView : DataView)
    (columnDefinitions : list Column) (sorters : list CurrentSorter)
    (this : SortService) (w w' : W) :
  Forall stringId columnDefinitions ->
  (forall s, toUpperCase (toUpperCase s) = toUpperCase s) ->
  presetSorters gridOptions = Some sorters ->
  let loaded :=
    after env (loadLocalPresets grid gridOptions dataView columnDefinitions)
      this w in
  presetSorters gridOptions' = Some (_currentLocalSorters loaded) ->
  _currentLocalSorters
    (after env (loadLocalPresets grid gridOptions' dataView columnDefinitions)
       loaded w')
  = _currentLocalSorters loaded.
Proof.
  intros Hstr Hidem Hs loaded Hs'. subst loaded.
  rewrite after_loadLocalPresets, Hs' .
  rewrite after_loadLocalPresets, Hs in *.
  cbn [_currentLocalSorters with_sorters].
  rewrite matchedPresets_reloaded by auto.
  rewrite map_map. apply map_ext. intros [c p]. cbn [fst snd].
  unfold presetSorter. cbn [cs_direction]. rewrite Hidem. reflexivity.
Qed.

Lemma findPreset_number_id (sorters : list CurrentSorter) (c : Column) :
  Forall stringColumnId sorters -> numberId c -> findPreset sorters c = None.
Proof.
  intros Hstr [n Hn]. unfold findPreset.
  induction Hstr as [|p l [s Hs] _ IH]; [reflexivity|].
  cbn [find].
  rewrite bool_decide_eq_false_2 by (rewrite Hs, Hn; discriminate).
  exact IH.
Qed.

(** X11.  The canonical state a load writes names every column by a
    string, [id + ''], while presets are matched with [===]: fed back as
    the presets, that state matches no column whose id is a number, so
    over such columns the second load leaves the state empty and makes no
    call. *)
Theorem presets_reload_loses_number_ids (grid : Grid)
    (gridOptions gridOptions' : option GridOption) (dataView : DataView)
    (columnDefinitions : list Column) (this : SortService) (w w' : W) :
  Forall numberId columnDefinitions ->
  let loaded :=
    after env (loadLocalPresets grid gridOptions dataView columnDefinitions)
      this w in
  presetSorters gridOptions' = Some (_currentLocalSorters loaded) ->
  let reload :=
    loadLocalPresets grid gridOptions' dataView columnDefinitions in
  Forall stringColumnId (_currentLocalSorters loaded)
  /\ _currentLocalSorters (after env reload loaded w') = []
  /\ trace env reload loaded w' = [].
Proof.
  intros Hnum loaded Hs' reload.
  assert (Hstr : Forall stringColumnId (_currentLocalSorters loaded)).
  { subst loaded. rewrite after_loadLocalPresets.
    cbn [_currentLocalSorters with_sorters].
    destruct (presetSorters gridOptions) as [sorters|]; [|constructor].
    apply List.Forall_forall. intros x Hx. apply in_map_iff in Hx as (cp & <- & _).
    eexists. reflexivity. }
  assert (Hnone : matchedPresets (_currentLocalSorters loaded)
                    columnDefinitions = []).
  { generalize dependent (_currentLocalSorters loaded).
    intros written _ Hstr.
    induction Hnum as [|c cols Hc _ IH]; [reflexivity|].
    cbn [matchedPresets]. rewrite findPreset_number_id by assumption.
    exact IH. }
  split; [exact Hstr|]. split.
  - unfold reload. rewrite after_loadLocalPresets, Hs', Hnone. reflexivity.
  - unfold reload, trace.
    rewrite (run_loadLocalPresets env _ _ _ _ _ _ _ Hs'). cbv zeta.
    rewrite Hnone. reflexivity.
Qed.

(** X12.  When several presets name the same column the first of them
    decides: the entry written for a column carries the uppercased
    direction of the first preset with the column's id, whatever presets
    follow it. *)
Theorem first_preset_of_a_column_decides (grid : Grid)
    (gridOptions : option GridOption) (dataView : DataView)
    (columnDefinitions : list Column) (c : Column)
    (earlier : list CurrentSorter) (p : CurrentSorter)
    (following : list CurrentSorter) (this : SortService) (w : W) :
  presetSorters gridOptions = Some (earlier ++ p :: following)%list ->
  Forall (fun q => cs_columnId q <> id c) earlier ->
  cs_columnId p = id c ->
  In c columnDefinitions ->
  In {| cs_columnId := IdString (id_to_string (id c));
        cs_direction := toUpperCase (cs_direction p) |}
     (_currentLocalSorters
        (after env (loadLocalPresets grid gridOptions dataView
                      columnDefinitions) this w))
  /\ forall sorter,
       In sorter
          (_currentLocalSorters
             (after env (loadLocalPresets grid gridOptions dataView
                           columnDefinitions) this w)) ->
       cs_columnId sorter = IdString (id_to_string (id c)) ->
       (forall c', In c' columnDefinitions ->
                   id_to_string (id c') = id_to_string (id c) ->
                   id c' = id c) ->
       cs_direction sorter = toUpperCase (cs_direction p).
Proof.
  intros Hs Hearlier Hp Hin.
  assert (Hfind : findPreset (earlier ++ p :: following) c = Some p).
  { unfold findPreset. clear Hs.
    induction Hearlier as [|q l Hq _ IH]; cbn [app find].
    - rewrite bool_decide_eq_true_2 by exact Hp. reflexivity.
    - rewrite bool_decide_eq_false_2 by exact Hq. exact IH. }
  rewrite after_loadLocalPresets, Hs.
  cbn [_currentLocalSorters with_sorters]. split.
  - apply in_map_iff. exists (c, p). split; [reflexivity|].
    apply matchedPresets_In; assumption.
  - intros sorter Hsorter Hid Hinj.
    apply in_map_iff in Hsorter as ([c' p'] & <- & Hcp).
    cbn [fst snd presetSorter cs_columnId cs_direction] in *.
    pose proof (matchedPresets_found (earlier ++ p :: following)
                  columnDefinitions) as Hfound.
    rewrite List.Forall_forall in Hfound. specialize (Hfound _ Hcp).
    cbn [fst snd] in Hfound.
    assert (Hc' : In c' columnDefinitions).
    { pose proof (matchedPresets_columns (earlier ++ p :: following)
                    columnDefinitions) as Hcols.
      assert (Hm : In c' (map fst (matchedPresets (earlier ++ p :: following)
                                     columnDefinitions)))
        by (apply in_map_iff; exists (c', p'); split; [reflexivity|exact Hcp]).
      rewrite Hcols in Hm. apply List.filter_In in Hm as [Hm _]. exact Hm. }
    assert (Heq : id c' = id c).
    { apply Hinj; [exact Hc'|]. injection Hid as Hid. exact Hid. }
    rewrite (findPreset_by_id _ c' c Heq), Hfind in Hfound.
    injection Hfound as <-. reflexivity.
Qed.

End PresetsMore.

(** ** Attaching and disposing *)
Section AttachMore.
Context `{JsHost} {W : Type} (env : Env W).

(** The fields after an attach to [grid] with [gridOptions]. *)
Lemma run_attachLocalOnSort (grid : Grid) (gridOptions : option GridOption)
    (dataView : DataView) (columnDefinitions : list Column)
    (this : SortService) (w : W) :
  let onGridSort := LocalOnSortHandler grid gridOptions dataView in
  let onRowCount :=
    RowCountChangedHandler grid gridOptions dataView columnDefinitions in
  let a1 := env _ (SlickSubscribe (onSort grid) onGridSort) w in
  let a2 :=
    env _ (EventHandlerSubscribe (onRowCountChanged dataView) onRowCount)
      (snd a1) in
  run env (attachLocalOnSort grid gridOptions dataView columnDefinitions this)
    w
  = ([Ev (SlickSubscribe (onSort grid) onGridSort) (fst a1);
      Ev (EventHandlerSubscribe (onRowCountChanged dataView) onRowCount)
         (fst a2)],
     (Normal (fst a2),
      {| _currentLocalSorters := _currentLocalSorters this;
         _grid := Some grid;
         _gridOptions := gridOptions;
         _slickSubscriber := Some (onSort grid) |}),
     snd a2).
Proof. reflexivity. Qed.

Lemma run_attachBackendOnSort (grid : Grid) (gridOptions : option GridOption)
    (this : SortService) (w : W) :
  let a1 := env _ (SlickSubscribe (onSort grid) BackendOnSortHandler) w in
  run env (attachBackendOnSort grid gridOptions this) w
  = ([Ev (SlickSubscribe (onSort grid) BackendOnSortHandler) (fst a1)],
     (Normal (fst a1),
      {| _currentLocalSorters := _currentLocalSorters this;
         _grid := Some grid;
         _gridOptions := gridOptions;
         _slickSubscriber := Some (onSort grid) |}),
     snd a1).
Proof. reflexivity. Qed.

(** What [dispose] calls, by the subscriber the service holds. *)
Lemma trace_dispose (this : SortService) (w : W) :
  trace env dispose this w
  = (match _slickSubscriber this with
     | Some subscriber =>
         if ev_unsubscribe subscriber
         then [Ev (SlickUnsubscribe subscriber) tt]
         else []
     | None => []
     end ++ [Ev EventHandlerUnsubscribeAll tt])%list.
Proof.
  unfold trace. rewrite run_dispose. cbv zeta. cbn [fst snd].
  destruct (_slickSubscriber this) as [s|].
  - rewrite run_when_call. destruct (ev_unsubscribe s); cbn [fst snd app];
      unit_answers; reflexivity.
  - cbn [run ret fst snd app]. unit_answers. reflexivity.
Qed.

Lemma trace_attachLocalOnSort_dispose (grid : Grid)
    (gridOptions : option GridOption) (dataView : DataView)
    (columnDefinitions : list Column) (this : SortService) (w : W) :
  trace env
    (attachLocalOnSort grid gridOptions dataView columnDefinitions ;;
     dispose) this w
  = ([Ev (SlickSubscribe (onSort grid)
            (LocalOnSortHandler grid gridOptions dataView)) tt;
      Ev (EventHandlerSubscribe (onRowCountChanged dataView)
            (RowCountChangedHandler grid gridOptions dataView
               columnDefinitions)) tt]
     ++ (if ev_unsubscribe (onSort grid)
         then [Ev (SlickUnsubscribe (onSort grid)) tt] else [])
     ++ [Ev EventHandlerUnsubscribeAll tt])%list.
Proof.
  rewrite trace_bind.
  unfold completion at 1, trace at 1, after at 1, world_after.
  rewrite !run_attachLocalOnSort. cbv zeta. cbn [fst snd].
  rewrite trace_dispose. cbn [_slickSubscriber app].
  unit_answers. reflexivity.
Qed.

(** X13.  [attachLocalOnSort] followed by [dispose]: the gesture callback
    is subscribed to [grid.onSort] directly and the row-count callback
    through the event handler; [dispose] then unsubscribes from
    [grid.onSort], if that has an [unsubscribe] function, and asks the
    event handler to unsubscribe all.  Attaching keeps the canonical state
    as it is, and disposing keeps the grid, the options and the subscriber
    the service holds. *)
Theorem attachLocalOnSort_then_dispose (grid : Grid)
    (gridOptions : option GridOption) (dataView : DataView)
    (columnDefinitions : list Column) (this : SortService) (w : W) :
  let m :=
    attachLocalOnSort grid gridOptions dataView columnDefinitions ;;
    dispose in
  trace env m this w
  = ([Ev (SlickSubscribe (onSort grid)
            (LocalOnSortHandler grid gridOptions dataView)) tt;
      Ev (EventHandlerSubscribe (onRowCountChanged dataView)
            (RowCountChangedHandler grid gridOptions dataView
               columnDefinitions)) tt]
     ++ (if ev_unsubscribe (onSort grid)
         then [Ev (SlickUnsubscribe (onSort grid)) tt] else [])
     ++ [Ev EventHandlerUnsubscribeAll tt])%list
  /\ completion env m this w = Normal tt
  /\ after env m this w
     = {| _currentLocalSorters := _currentLocalSorters this;
          _grid := Some grid;
          _gridOptions := gridOptions;
          _slickSubscriber := Some (onSort grid) |}.
Proof.
  intros m. unfold m.
  rewrite trace_bind, completion_bind, after_bind.
  unfold completion at 1 2 4, trace at 1, after at 1 2, world_after.
  rewrite !run_attachLocalOnSort. cbv zeta. cbn [fst snd].
  rewrite trace_dispose. cbn [_slickSubscriber].
  split; [|split].
  - cbn [app]. unit_answers. reflexivity.
  - apply dispose_returns.
  - apply dispose_returns.
Qed.

(** X14.  [attachBackendOnSort] followed by [dispose]: the backend
    callback is subscribed to [grid.onSort], and nothing is registered
    with the event handler; [dispose] unsubscribes from [grid.onSort], if
    that has an [unsubscribe] function, and asks the event handler to
    unsubscribe all; the canonical state is as before. *)
Theorem attachBackendOnSort_then_dispose (grid : Grid)
    (gridOptions : option GridOption) (this : SortService) (w : W) :
  let m := attachBackendOnSort grid gridOptions ;; dispose in
  trace env m this w
  = ([Ev (SlickSubscribe (onSort grid) BackendOnSortHandler) tt]
     ++ (if ev_unsubscribe (onSort grid)
         then [Ev (SlickUnsubscribe (onSort grid)) tt] else [])
     ++ [Ev EventHandlerUnsubscribeAll tt])%list
  /\ completion env m this w = Normal tt
  /\ after env m this w
     = {| _currentLocalSorters := _currentLocalSorters this;
          _grid := Some grid;
          _gridOptions := gridOptions;
          _slickSubscriber := Some (onSort grid) |}.
Proof.
  intros m. unfold m.
  rewrite trace_bind, completion_bind, after_bind.
  unfold completion at 1 2 4, trace at 1, after at 1 2, world_after.
  rewrite !run_attachBackendOnSort. cbv zeta. cbn [fst snd].
  rewrite trace_dispose. cbn [_slickSubscriber].
  split; [|split].
  - cbn [app]. unit_answers. reflexivity.
  - apply dispose_returns.
  - apply dispose_returns.
Qed.

Lemma subscribed_app (t1 t2 : list Event) :
  subscribed (t1 ++ t2) = (subscribed t1 ++ subscribed t2)%list.
Proof.
  induction t1 as [|[R c r] t1 IH]; [reflexivity|].
  destruct c; simpl; rewrite ?IH; reflexivity.
Qed.

Lemma unsubscribed_app (t1 t2 : list Event) :
  unsubscribed (t1 ++ t2) = (unsubscribed t1 ++ unsubscribed t2)%list.
Proof.
  induction t1 as [|[R c r] t1 IH]; [reflexivity|].
  destruct c; simpl; rewrite ?IH; reflexivity.
Qed.

(** X15.  The service holds one subscriber, the [onSort] of the grid
    attached last.  After two attaches, local or backend, [dispose]
    unsubscribes from the second grid's [onSort] only: the subscription
    made on the first grid's [onSort] is never unsubscribed from. *)
Theorem dispose_releases_last_attached_only (grid1 grid2 : Grid)
    (gridOptions1 gridOptions2 : option GridOption)
    (dataView1 dataView2 : DataView)
    (columnDefinitions1 columnDefinitions2 : list Column)
    (this : SortService) (w : W) :
  let released :=
    if ev_unsubscribe (onSort grid2) then [onSort grid2] else [] in
  let localTwice :=
    attachLocalOnSort grid1 gridOptions1 dataView1 columnDefinitions1 ;;
    attachLocalOnSort grid2 gridOptions2 dataView2 columnDefinitions2 ;;
    dispose in
  let backendThenLocal :=
    attachBackendOnSort grid1 gridOptions1 ;;
    attachLocalOnSort grid2 gridOptions2 dataView2 columnDefinitions2 ;;
    dispose in
  subscribed (trace env localTwice this w) = [onSort grid1; onSort grid2]
  /\ unsubscribed (trace env localTwice this w) = released
  /\ subscribed (trace env backendThenLocal this w)
     = [onSort grid1; onSort grid2]
  /\ unsubscribed (trace env backendThenLocal this w) = released.
Proof.
  intros released localTwice backendThenLocal.
  assert (Hlocal : forall s v,
    subscribed (trace env
      (attachLocalOnSort grid2 gridOptions2 dataView2 columnDefinitions2 ;;
       dispose) s v) = [onSort grid2]
    /\ unsubscribed (trace env
      (attachLocalOnSort grid2 gridOptions2 dataView2 columnDefinitions2 ;;
       dispose) s v) = released).
  { intros s v.
    rewrite trace_attachLocalOnSort_dispose. unfold released.
    destruct (ev_unsubscribe (onSort grid2)); split; reflexivity. }
  unfold localTwice, backendThenLocal.
  rewrite !(trace_bind env (attachLocalOnSort grid1 _ _ _)),
          !(trace_bind env (attachBackendOnSort grid1 _)).
  unfold completion at 1 2 3 4, trace at 1 3 5 7.
  rewrite !run_attachLocalOnSort, !run_attachBackendOnSort.
  cbv zeta. cbn [fst snd].
  rewrite !subscribed_app, !unsubscribed_app.
  cbn [subscribed unsubscribed app].
  repeat split;
    match goal with
    | |- context [trace env _ ?s ?v] =>
        destruct (Hlocal s v) as [Hsub Hunsub]; rewrite ?Hsub, ?Hunsub
    end; reflexivity.
Qed.

End AttachMore.

(** ** What is reported and what is sorted by *)
Section ReportedMore.
Context `{JsHost} {W : Type} (env : Env W).

(** X16.  After a multi-column gesture the canonical state lists every
    pair with a column, but the comparator handed to the view is decided
    by the first of them alone: the state starts with that pair's entry
    and goes on with the entries of the later pairs, while rows compare as
    they do under the one-pair gesture. *)
Theorem state_lists_more_than_is_sorted_by (grid : Grid)
    (gridOptions : option GridOption) (dataView : DataView) (e : Value)
    (args : SortArgs) (skipped : list SortChanged) (spec : SortChanged)
    (c : Column) (later : list SortChanged) (this : SortService) (w : W) :
  gestureSortColumns args = Some (skipped ++ spec :: later)%list ->
  Forall unresolved skipped ->
  sortCol spec = Some c ->
  let m := localOnSort grid gridOptions dataView e (Some args) in
  _currentLocalSorters (after env m this w)
  = {| cs_columnId := id c;
       cs_direction := if sortAsc spec
                       then SortDirection_ASC else SortDirection_DESC |}
    :: _currentLocalSorters
         (after env
            (localOnSort grid gridOptions dataView e
               (Some {| args_grid := args_grid args;
                        args_multiColumnSort := true;
                        args_sortCols := Some later;
                        args_sortAsc := args_sortAsc args;
                        args_sortCol := args_sortCol args |}))
            this w)
  /\ forall dataRow1 dataRow2,
       localComparator (gestureSortColumns args) dataRow1 dataRow2
       = localComparator (Some [spec]) dataRow1 dataRow2.
Proof.
  intros Harray Hskip Hc m. split.
  - unfold m. rewrite !after_localOnSort, Harray.
    cbn [gestureSortColumns args_multiColumnSort args_sortCols default
         from_option Datatypes.id _currentLocalSorters with_sorters].
    clear Harray. induction Hskip as [|s l Hs _ IH]; cbn [app gestureSorters].
    + rewrite Hc. reflexivity.
    + unfold unresolved in Hs. rewrite Hs. exact IH.
  - intros r1 r2. rewrite Harray. cbn [localComparator]. f_equal.
    rewrite compareRows_skip by assumption. cbn [compareRows].
    rewrite Hc. reflexivity.
Qed.

End ReportedMore.

(** ** The further statements on the example grid *)

(** X1 with collaborators that reject the awaited promise. *)
Lemma backend_outcome_follows_await_witness :
  let options := Some demo_backendOptions in
  let m := attachBackendOnSortSubscribe (VString "click")
             (Some (demo_gesture options)) in
  args_grid (demo_gesture options) = Some (demo_grid options)
  /\ backendApiOf (gridOptionsOf (demo_grid options)) = Some demo_api
  /\ process demo_api = true
  /\ service demo_api = Some demo_service
  /\ exists settled,
       settledOf (trace demo_rejectingEnv m (demo_attached options) tt)
       = [settled].
Proof.
  cbv zeta. repeat (split; [reflexivity|]).
  destruct (backend_outcome_follows_await demo_rejectingEnv (VString "click")
              (demo_gesture (Some demo_backendOptions))
              (demo_grid (Some demo_backendOptions)) demo_api demo_service
              (demo_attached (Some demo_backendOptions)) tt
              eq_refl eq_refl eq_refl eq_refl) as (settled & Hs & _).
  exists settled. exact Hs.
Defined.

(** X2 on the example backend contract. *)
Lemma backend_query_flows_to_process_witness :
  let options := Some demo_backendOptions in
  args_grid (demo_gesture options) = Some (demo_grid options)
  /\ backendApiOf (gridOptionsOf (demo_grid options)) = Some demo_api
  /\ process demo_api = true
  /\ service demo_api = Some demo_service
  /\ exists query promise settled,
       In (Ev (ServiceOnSortChanged demo_service (VString "click")
                 (demo_gesture options)) query)
          (trace demo_env
             (attachBackendOnSortSubscribe (VString "click")
                (Some (demo_gesture options)))
             (demo_attached options) tt)
       /\ In (Ev (Process demo_api query) promise)
             (trace demo_env
                (attachBackendOnSortSubscribe (VString "click")
                   (Some (demo_gesture options)))
                (demo_attached options) tt)
       /\ In (Ev (Await promise) settled)
             (trace demo_env
                (attachBackendOnSortSubscribe (VString "click")
                   (Some (demo_gesture options)))
                (demo_attached options) tt).
Proof.
  cbv zeta. repeat (split; [reflexivity|]).
  exact (backend_query_flows_to_process demo_env (VString "click")
           (demo_gesture (Some demo_backendOptions))
           (demo_grid (Some demo_backendOptions)) demo_api demo_service
           (demo_attached (Some demo_backendOptions)) tt
           eq_refl eq_refl eq_refl eq_refl).
Defined.

(** X5 on the example rows and a row that differs in another field. *)
Lemma comparator_reads_deciding_field_only_witness :
  let spec := {| columnId := None; sortAsc := true;
                 sortCol := Some demo_colA |} in
  let other := <["b.sortKey" := VString "fig"]> demo_row1 in
  Forall unresolved []
  /\ sortCol spec = Some demo_colA
  /\ demo_row1 !! sortFieldOf demo_colA = other !! sortFieldOf demo_colA
  /\ compareRows ([] ++ spec :: []) demo_row1 demo_row2
     = compareRows ([] ++ spec :: [ {| columnId := None; sortAsc := false;
                                       sortCol := Some demo_colB |} ])
         other demo_row2.
Proof.
  cbv zeta.
  assert (Hnil : Forall unresolved []) by constructor.
  assert (Hrow : demo_row1 !! sortFieldOf demo_colA
                 = <["b.sortKey" := VString "fig"]> demo_row1
                   !! sortFieldOf demo_colA)
    by (vm_compute; reflexivity).
  split; [exact Hnil|]. split; [reflexivity|]. split; [exact Hrow|].
  exact (comparator_reads_deciding_field_only demo_row1 demo_row2
           (<["b.sortKey" := VString "fig"]> demo_row1) demo_row2 []
           {| columnId := None; sortAsc := true; sortCol := Some demo_colA |}
           demo_colA [] _ Hnil eq_refl Hrow eq_refl).
Defined.

(** X7 on the multi-column gesture followed by the report 3 -> 5. *)
Lemma row_count_report_forgets_gesture_witness :
  let report := {| previous := 3; current := 5 |} in
  0 < current report
  /\ _currentLocalSorters
       (after demo_env
          (localOnSort (demo_grid None) None demo_dataView VUndefined
             (Some demo_multiGesture) ;;
           localOnRowCountChanged (demo_grid None) None demo_dataView
             demo_columns VUndefined report)
          new_SortService tt)
     = [].
Proof.
  cbv zeta.
  assert (Hpos : 0 < current {| previous := 3; current := 5 |})
    by (simpl; lia).
  split; [exact Hpos|].
  exact (proj1 (proj2 (row_count_report_forgets_gesture demo_env
                         (demo_grid None) None demo_dataView demo_columns
                         VUndefined demo_multiGesture _
                         {| previous := 3; current := 5 |}
                         new_SortService new_SortService tt tt
                         eq_refl Hpos)) eq_refl).
Defined.

(** X8 on a view that compares no rows, and on one that compares two. *)
Lemma gesture_without_sortCols_witness :
  gestureSortColumns demo_gestureWithoutSortCols = None
  /\ completion demo_emptyViewEnv
       (localOnSort (demo_grid None) None demo_dataView VUndefined
          (Some demo_gestureWithoutSortCols)) demo_sorted tt
     = Normal tt
  /\ completion demo_env
       (localOnSort (demo_grid None) None demo_dataView VUndefined
          (Some demo_gestureWithoutSortCols)) demo_sorted tt
     = Thrown (TypeError "Cannot read property 'length' of undefined").
Proof.
  split; [reflexivity|]. split.
  - exact (proj1 (proj1 (proj2 (gesture_without_sortCols demo_emptyViewEnv
                                  (demo_grid None) None demo_dataView
                                  VUndefined demo_gestureWithoutSortCols
                                  demo_sorted tt eq_refl)) eq_refl)).
  - refine (proj1 (proj2 (proj2 (gesture_without_sortCols demo_env
                                   (demo_grid None) None demo_dataView
                                   VUndefined demo_gestureWithoutSortCols
                                   demo_sorted tt eq_refl)) _)).
    discriminate.
Defined.

(** X9 on the multi-column gesture. *)
Lemma local_gesture_call_sequence_witness :
  gestureSortColumns demo_multiGesture = args_sortCols demo_multiGesture
  /\ completion demo_env
       (localOnSort (demo_grid None) None demo_dataView VUndefined
          (Some demo_multiGesture)) demo_sorted tt
     = Normal tt.
Proof.
  split; [reflexivity|].
  destruct (local_gesture_call_sequence demo_env (demo_grid None) None
              demo_dataView VUndefined demo_multiGesture _ demo_sorted tt
              eq_refl) as (compared & sorters & _ & Hc & _).
  exact Hc.
Defined.

(** X10 on the example columns A and B, whose ids are strings. *)
Lemma presets_reload_is_stable_witness :
  let columns := [demo_colA; demo_colB] in
  let load := loadLocalPresets (demo_grid (Some demo_presetOptions))
                (Some demo_presetOptions) demo_dataView columns in
  let loaded := after demo_env load demo_sorted tt in
  let options' := demo_optionsWith (_currentLocalSorters loaded) in
  Forall stringId columns
  /\ (forall s, toUpperCase (toUpperCase s) = toUpperCase s)
  /\ _currentLocalSorters
       (after demo_env
          (loadLocalPresets (demo_grid (Some demo_presetOptions)) options'
             demo_dataView columns) loaded tt)
     = _currentLocalSorters loaded.
Proof.
  cbv zeta.
  assert (Hstr : Forall stringId [demo_colA; demo_colB])
    by (repeat constructor; eexists; reflexivity).
  assert (Hidem : forall s, toUpperCase (toUpperCase s) = toUpperCase s).
  { intros s. simpl. induction s as [|a s IH]; [reflexivity|].
    cbn [upper_string]. rewrite IH. f_equal.
    destruct a as [[] [] [] [] [] [] [] []]; reflexivity. }
  split; [exact Hstr|]. split; [exact Hidem|].
  exact (presets_reload_is_stable demo_env
           (demo_grid (Some demo_presetOptions)) (Some demo_presetOptions)
           (demo_optionsWith
              (_currentLocalSorters
                 (after demo_env
                    (loadLocalPresets (demo_grid (Some demo_presetOptions))
                       (Some demo_presetOptions) demo_dataView
                       [demo_colA; demo_colB]) demo_sorted tt)))
           demo_dataView [demo_colA; demo_colB] demo_presets demo_sorted
           tt tt Hstr Hidem eq_refl eq_refl).
Defined.

(** X11 on a column with the id 7 and a preset for it. *)
Lemma presets_reload_loses_number_ids_witness :
  let load := loadLocalPresets (demo_grid (Some demo_numberPresetOptions))
                (Some demo_numberPresetOptions) demo_dataView [demo_colN] in
  let loaded := after demo_env load demo_sorted tt in
  let options' := demo_optionsWith (_currentLocalSorters loaded) in
  Forall numberId [demo_colN]
  /\ _currentLocalSorters loaded
     = [ {| cs_columnId := IdString "7"; cs_direction := "ASC" |} ]
  /\ _currentLocalSorters
       (after demo_env
          (loadLocalPresets (demo_grid (Some demo_numberPresetOptions))
             options' demo_dataView [demo_colN]) loaded tt)
     = [].
Proof.
  cbv zeta.
  assert (Hnum : Forall numberId [demo_colN])
    by (repeat constructor; eexists; reflexivity).
  split; [exact Hnum|]. split; [vm_compute; reflexivity|].
  exact (proj1 (proj2 (presets_reload_loses_number_ids demo_env
                         (demo_grid (Some demo_numberPresetOptions))
                         (Some demo_numberPresetOptions)
                         (demo_optionsWith
                            (_currentLocalSorters
                               (after demo_env
                                  (loadLocalPresets
                                     (demo_grid (Some demo_numberPresetOptions))
                                     (Some demo_numberPresetOptions)
                                     demo_dataView [demo_colN])
                                  demo_sorted tt)))
                         demo_dataView
                         [demo_colN] demo_sorted tt tt Hnum eq_refl))).
Defined.

(** X12 on two presets for column A, descending first. *)
Lemma first_preset_of_a_column_decides_witness :
  let first := {| cs_columnId := IdString "A"; cs_direction := "desc" |} in
  let second := {| cs_columnId := IdString "A"; cs_direction := "asc" |} in
  let options := demo_optionsWith [first; second] in
  presetSorters options = Some ([] ++ first :: [second])%list
  /\ cs_columnId first = id demo_colA
  /\ In demo_colA demo_columns
  /\ In {| cs_columnId := IdString "A"; cs_direction := "DESC" |}
        (_currentLocalSorters
           (after demo_env
              (loadLocalPresets (demo_grid options) options demo_dataView
                 demo_columns) demo_sorted tt)).
Proof.
  cbv zeta.
  assert (Hin : In demo_colA demo_columns) by (left; reflexivity).
  split; [reflexivity|]. split; [reflexivity|]. split; [exact Hin|].
  exact (proj1 (first_preset_of_a_column_decides demo_env
                  (demo_grid
                     (demo_optionsWith
                        [ {| cs_columnId := IdString "A";
                             cs_direction := "desc" |};
                          {| cs_columnId := IdString "A";
                             cs_direction := "asc" |} ]))
                  (demo_optionsWith
                     [ {| cs_columnId := IdString "A";
                          cs_direction := "desc" |};
                       {| cs_columnId := IdString "A";
                          cs_direction := "asc" |} ])
                  demo_dataView
                  demo_columns demo_colA []
                  {| cs_columnId := IdString "A"; cs_direction := "desc" |}
                  [ {| cs_columnId := IdString "A"; cs_direction := "asc" |} ]
                  demo_sorted tt eq_refl (List.Forall_nil _) eq_refl Hin)).
Defined.

(** X16 on the multi-column gesture: B decides, A is listed. *)
Lemma state_lists_more_than_is_sorted_by_witness :
  let skipped := [ {| columnId := None; sortAsc := true; sortCol := None |} ] in
  let spec := {| columnId := None; sortAsc := false;
                 sortCol := Some demo_colB |} in
  Forall unresolved skipped
  /\ sortCol spec = Some demo_colB
  /\ forall dataRow1 dataRow2,
       localComparator (gestureSortColumns demo_multiGesture)
         dataRow1 dataRow2
       = localComparator (Some [spec]) dataRow1 dataRow2.
Proof.
  cbv zeta.
  assert (Hskip : Forall unresolved
            [ {| columnId := None; sortAsc := true; sortCol := None |} ])
    by (repeat constructor).
  split; [exact Hskip|]. split; [reflexivity|].
  exact (proj2 (state_lists_more_than_is_sorted_by demo_env (demo_grid None)
                  None demo_dataView VUndefined demo_multiGesture
                  [ {| columnId := None; sortAsc := true; sortCol := None |} ]
                  {| columnId := None; sortAsc := false;
                     sortCol := Some demo_colB |} demo_colB
                  [ {| columnId := None; sortAsc := true;
                       sortCol := Some demo_colA |} ]
                  demo_sorted tt eq_refl Hskip eq_refl)).
Defined.
